(** * gpio_behavior.c: the GPIO pass-through loop

    The program of [.app_src/00_AliveBehavior/gpio_behavior.c] opens a GPIO
    chip, asks for line 10 as input and line 24 as output, and then copies
    the level of the input line to the output line every 10 ms, for ever.

    The program is a sequence of calls into libgpiod and libc.  It is
    embedded as an interaction tree whose events are those calls; what it
    does is then observed by running the tree against a provider that
    answers the calls, recording every call together with its answer. *)

From Stdlib Require Import String ZArith List Lia Bool.
From ITree Require Import ITree Props.Leaf.
Import ListNotations ITreeNotations.

Local Open Scope string_scope.
Local Open Scope list_scope.
Local Open Scope Z_scope.
Local Open Scope itree_scope.

(** ** C data *)

(** A pointer ([struct gpiod_chip *], [struct gpiod_line *]) is an address;
    the null pointer is address 0.  A C [int] is kept as an integer: the
    program performs no arithmetic on the values it is handed, it only
    passes them on. *)
Abbreviation ptr := Z (only parsing).
Definition NULL : ptr := 0.

(** The three macros of the source. *)
Definition GPIO_CHIP : string := "/dev/gpiochip0".
Definition INPUT_LINE : Z := 10.
Definition OUTPUT_LINE : Z := 24.

(** ** The calls the program makes

    One event per library function called by [main], carrying the actual
    arguments; the index is the C return type. *)
Variant gpioE : Type -> Type :=
| gpiod_chip_open (path : string) : gpioE ptr
| perror (s : string) : gpioE unit
| gpiod_chip_get_line (chip : ptr) (offset : Z) : gpioE ptr
| gpiod_line_request_input (line : ptr) (consumer : string) : gpioE Z
| gpiod_line_request_output (line : ptr) (consumer : string) (default_val : Z) : gpioE Z
| gpiod_line_get_value (line : ptr) : gpioE Z
| gpiod_line_set_value (line : ptr) (value : Z) : gpioE Z
| usleep (usec : Z) : gpioE Z
| gpiod_chip_close (chip : ptr) : gpioE unit.

(** ** The program *)

(** [int main()]: statement for statement.  [while (1)] is [ITree.forever];
    the two statements after the loop are kept where the source has them. *)
Definition main : itree gpioE Z :=
  chip <- ITree.trigger (gpiod_chip_open GPIO_CHIP);;
  if Z.eqb chip NULL then
    ITree.trigger (perror "Open chip failed");;
    Ret 1
  else
    in_line <- ITree.trigger (gpiod_chip_get_line chip INPUT_LINE);;
    out_line <- ITree.trigger (gpiod_chip_get_line chip OUTPUT_LINE);;
    ITree.trigger (gpiod_line_request_input in_line "gpio_in");;
    ITree.trigger (gpiod_line_request_output out_line "gpio_out" 0);;
    (ITree.forever
       (val <- ITree.trigger (gpiod_line_get_value in_line);;
        ITree.trigger (gpiod_line_set_value out_line val);;
        ITree.trigger (usleep 10000)) : itree gpioE unit);;
    ITree.trigger (gpiod_chip_close chip);;
    Ret 0.

(** The pieces of [main] after the four start-up calls, named for the
    proofs: the body of the loop, the code after the loop, and the loop
    followed by that code. *)
Definition loop_body (in_line out_line : ptr) : itree gpioE Z :=
  val <- ITree.trigger (gpiod_line_get_value in_line);;
  ITree.trigger (gpiod_line_set_value out_line val);;
  ITree.trigger (usleep 10000).

Definition after_loop (chip : ptr) : itree gpioE Z :=
  ITree.trigger (gpiod_chip_close chip);;
  Ret 0.

Definition steady (chip in_line out_line : ptr) : itree gpioE Z :=
  (ITree.forever (loop_body in_line out_line) : itree gpioE unit);;
  after_loop chip.

(** ** Running the program against a provider *)

(** A provider answers every call from its current state (the hardware, the
    kernel, the file system) and moves to a new state.  Nothing is assumed
    about the answers: any call may fail. *)
Record provider : Type := Provider {
  world : Type;
  answer : forall X : Type, gpioE X -> world -> X * world
}.
Arguments answer p {X} _ _.

(** One entry of the log: a call and the answer it received. *)
Inductive call : Type :=
| Call : forall X : Type, gpioE X -> X -> call.
Arguments Call {X} _ _.

(** Where the process stands: it has returned from [main] with an exit
    status, or it is still executing. *)
Variant status : Type :=
| Exited (code : Z)
| Running.

(** [run P fuel t w] executes at most [fuel] steps of [t] from the state
    [w]; a step is one call, or one jump back to the head of the loop. *)
Fixpoint run (P : provider) (fuel : nat) (t : itree gpioE Z) (w : world P)
  : list call * status * world P :=
  match fuel with
  | O => ([], Running, w)
  | S fuel' =>
    match observe t with
    | RetF code => ([], Exited code, w)
    | TauF t' => run P fuel' t' w
    | VisF e k =>
      let '(x, w1) := answer P e w in
      let '(log, st, w2) := run P fuel' (k x) w1 in
      (Call e x :: log, st, w2)
    end
  end.

Definition log_of {W : Type} (r : list call * status * W) : list call := fst (fst r).
Definition status_of {W : Type} (r : list call * status * W) : status := snd (fst r).
Definition world_of {W : Type} (r : list call * status * W) : W := snd r.

(** Steps taken by the start-up sequence (five calls) and by one turn of
    the loop (three calls and the jump back). *)
Definition startup_steps : nat := 5.
Definition iteration_steps : nat := 4.

(** The state of affairs after start-up and [n] complete iterations. *)
Definition after_iterations (P : provider) (n : nat) (w : world P)
  : list call * status * world P :=
  run P (startup_steps + n * iteration_steps) main w.

(** The chip can be opened from state [w]. *)
Definition opens (P : provider) (w : world P) : Prop :=
  fst (answer P (gpiod_chip_open GPIO_CHIP) w) <> NULL.

(** The provider never hands out the handle of one line for another line:
    a handle obtained for an offset differs from whatever is obtained for a
    different offset. *)
Definition distinct_handles (P : provider) : Prop :=
  forall (chip o1 o2 : Z) (w1 w2 : world P),
    o1 <> o2 ->
    fst (answer P (gpiod_chip_get_line chip o1) w1) <> NULL ->
    fst (answer P (gpiod_chip_get_line chip o1) w1) <>
    fst (answer P (gpiod_chip_get_line chip o2) w2).

(** A provider that replays a script: its state is a list of calls with
    their answers, and it answers each call with the next answer of the
    list (0 or nothing when the script is over or the answer has the wrong
    type). *)
Definition replay (X X' : Type) (e : gpioE X) (e' : gpioE X') (x' : X') : X :=
  match e in gpioE T return T with
  | gpiod_chip_open _ | gpiod_chip_get_line _ _ | gpiod_line_request_input _ _
  | gpiod_line_request_output _ _ _ | gpiod_line_get_value _
  | gpiod_line_set_value _ _ | usleep _ =>
      match e' in gpioE T' return T' -> Z with
      | perror _ | gpiod_chip_close _ => fun _ => 0
      | _ => fun x => x
      end x'
  | perror _ | gpiod_chip_close _ => tt
  end.

Definition scripted : provider :=
  Provider (list call)
    (fun X e script =>
       match script with
       | Call e' x' :: rest => (replay X _ e e' x', rest)
       | [] => (replay X _ e (usleep 0) 0, [])
       end).

(** ** Reading a log *)

(** The level returned by a read of a line, the level handed to a write. *)
Definition read_value (c : call) : option Z :=
  match c with
  | @Call X e x =>
    match e in gpioE T return T -> option Z with
    | gpiod_line_get_value _ => fun v => Some v
    | _ => fun _ => None
    end x
  end.

Definition written_value (c : call) : option Z :=
  match c with
  | Call e _ =>
    match e with
    | gpiod_line_set_value _ v => Some v
    | _ => None
    end
  end.

Fixpoint collect {A : Type} (f : call -> option A) (log : list call) : list A :=
  match log with
  | [] => []
  | c :: log' =>
    match f c with
    | Some a => a :: collect f log'
    | None => collect f log'
    end
  end.

(** Levels read, and levels written, in the order of the calls. *)
Definition values_read (log : list call) : list Z := collect read_value log.
Definition values_written (log : list call) : list Z := collect written_value log.

(** The level a call puts on line [l], when it puts one: the initial level
    of a request for output, or the level of a write. *)
Definition drives (l : ptr) (c : call) : option Z :=
  match c with
  | Call e _ =>
    match e with
    | gpiod_line_request_output l' _ v => if Z.eqb l' l then Some v else None
    | gpiod_line_set_value l' v => if Z.eqb l' l then Some v else None
    | _ => None
    end
  end.

(** The value of line [l] after the calls of [log]: the level most recently
    put on it, if any. *)
Definition line_value (log : list call) (l : ptr) : option Z :=
  last (map Some (collect (drives l) log)) None.

(** A call that puts a level on line [l] and is turned down: the provider
    answers with something other than 0. *)
Definition refused (l : ptr) (c : call) : bool :=
  match c with
  | @Call X e x =>
    match e in gpioE T return T -> bool with
    | gpiod_line_request_output l' _ _ => fun r => Z.eqb l' l && negb (Z.eqb r 0)
    | gpiod_line_set_value l' _ => fun r => Z.eqb l' l && negb (Z.eqb r 0)
    | _ => fun _ => false
    end x
  end.

(** The level most recently read from the input. *)
Definition last_read (log : list call) : option Z :=
  last (map Some (values_read log)) None.

(** Calls on a line handle: get-line, the two requests, read and write. *)
Definition is_line_op (c : call) : bool :=
  match c with
  | Call e _ =>
    match e with
    | gpiod_chip_get_line _ _
    | gpiod_line_request_input _ _
    | gpiod_line_request_output _ _ _
    | gpiod_line_get_value _
    | gpiod_line_set_value _ _ => true
    | _ => false
    end
  end.

Definition is_close (c : call) : bool :=
  match c with
  | Call e _ => match e with gpiod_chip_close _ => true | _ => false end
  end.

Definition is_write (c : call) : bool :=
  match c with
  | Call e _ => match e with gpiod_line_set_value _ _ => true | _ => false end
  end.

(** The calls of the steady state: read, write, sleep. *)
Definition is_loop_call (c : call) : bool :=
  match c with
  | Call e _ =>
    match e with
    | gpiod_line_get_value _ | gpiod_line_set_value _ _ | usleep _ => true
    | _ => false
    end
  end.

(** The device path a call opens, the line offset a call asks for. *)
Definition opened_path (c : call) : option string :=
  match c with
  | Call e _ => match e with gpiod_chip_open path => Some path | _ => None end
  end.

Definition acquired_offset (c : call) : option Z :=
  match c with
  | Call e _ => match e with gpiod_chip_get_line _ offset => Some offset | _ => None end
  end.

Definition paths_opened (log : list call) : list string := collect opened_path log.
Definition offsets_acquired (log : list call) : list Z := collect acquired_offset log.

(** The library function a call goes to, arguments and answer left out. *)
Variant callee : Type :=
| to_chip_open | to_perror | to_get_line | to_request_input | to_request_output
| to_get_value | to_set_value | to_usleep | to_chip_close.

Definition callee_of (c : call) : callee :=
  match c with
  | Call e _ =>
    match e with
    | gpiod_chip_open _ => to_chip_open
    | perror _ => to_perror
    | gpiod_chip_get_line _ _ => to_get_line
    | gpiod_line_request_input _ _ => to_request_input
    | gpiod_line_request_output _ _ _ => to_request_output
    | gpiod_line_get_value _ => to_get_value
    | gpiod_line_set_value _ _ => to_set_value
    | usleep _ => to_usleep
    | gpiod_chip_close _ => to_chip_close
    end
  end.

(** The five calls of the start-up sequence with their answers, and the
    three calls of one iteration with theirs. *)
Definition startup_calls (chip in_line out_line r_in r_out : Z) : list call :=
  [ Call (gpiod_chip_open GPIO_CHIP) chip;
    Call (gpiod_chip_get_line chip INPUT_LINE) in_line;
    Call (gpiod_chip_get_line chip OUTPUT_LINE) out_line;
    Call (gpiod_line_request_input in_line "gpio_in") r_in;
    Call (gpiod_line_request_output out_line "gpio_out" 0) r_out ].

Definition iteration_calls (in_line out_line : ptr) (r : Z * Z * Z) : list call :=
  let '(val, r_set, r_sleep) := r in
  [ Call (gpiod_line_get_value in_line) val;
    Call (gpiod_line_set_value out_line val) r_set;
    Call (usleep 10000) r_sleep ].

(** The levels read from line [l] and the levels written to line [l]: as
    [values_read] and [values_written], for the calls made on that handle
    only. *)
Definition read_on (l : ptr) (c : call) : option Z :=
  match c with
  | @Call X e x =>
    match e in gpioE T return T -> option Z with
    | gpiod_line_get_value l' => fun v => if Z.eqb l' l then Some v else None
    | _ => fun _ => None
    end x
  end.

Definition written_on (l : ptr) (c : call) : option Z :=
  match c with
  | Call e _ =>
    match e with
    | gpiod_line_set_value l' v => if Z.eqb l' l then Some v else None
    | _ => None
    end
  end.

Definition values_read_on (l : ptr) (log : list call) : list Z :=
  collect (read_on l) log.
Definition values_written_on (l : ptr) (log : list call) : list Z :=
  collect (written_on l) log.

(** The level most recently read from line [l]. *)
Definition last_read_on (l : ptr) (log : list call) : option Z :=
  last (map Some (values_read_on l log)) None.

(** The error reports: calls of [perror]. *)
Definition is_report (c : call) : bool :=
  match c with
  | Call e _ => match e with perror _ => true | _ => false end
  end.

(** The durations slept, in microseconds, in the order of the calls. *)
Definition slept_for (c : call) : option Z :=
  match c with
  | Call e _ => match e with usleep usec => Some usec | _ => None end
  end.

Definition sleeps (log : list call) : list Z := collect slept_for log.

(** The handles the provider handed out: the answers of the open and of
    the get-line calls. *)
Definition handle_obtained (c : call) : option ptr :=
  match c with
  | @Call X e x =>
    match e in gpioE T return T -> option ptr with
    | gpiod_chip_open _ => fun chip => Some chip
    | gpiod_chip_get_line _ _ => fun line => Some line
    | _ => fun _ => None
    end x
  end.

Definition handles_obtained (log : list call) : list ptr := collect handle_obtained log.

(** The line a read is made on, and the line a level is put on (by a
    request for output or by a write). *)
Definition line_read (c : call) : option ptr :=
  match c with
  | Call e _ => match e with gpiod_line_get_value l => Some l | _ => None end
  end.

Definition line_driven (c : call) : option ptr :=
  match c with
  | Call e _ =>
    match e with
    | gpiod_line_request_output l _ _ => Some l
    | gpiod_line_set_value l _ => Some l
    | _ => None
    end
  end.

Definition lines_read (log : list call) : list ptr := collect line_read log.
Definition lines_driven (log : list call) : list ptr := collect line_driven log.

(** A call as the program makes it: the function and its arguments,
    without the answer. *)
Inductive request : Type :=
| Request : forall X : Type, gpioE X -> request.
Arguments Request {X} _.

Definition request_of (c : call) : request :=
  match c with
  | Call e _ => Request e
  end.

(** The calls of an iteration that is under way: none yet, the read, or
    the read and the write of the level read. *)
Definition unfinished (in_line out_line : ptr) (part : list call) : Prop :=
  part = [] \/
  (exists val : Z, part = [Call (gpiod_line_get_value in_line) val]) \/
  (exists val r_set : Z,
     part = [Call (gpiod_line_get_value in_line) val;
             Call (gpiod_line_set_value out_line val) r_set]).

(** ** What the process holds *)

(** The handles the process has obtained, as the log shows them: the chips
    it has open, the lines it got together with the chip each one came from,
    and the lines it has requested as input and as output. *)
Record holdings : Type := Holdings {
  chips : list ptr;
  acquired : list (ptr * ptr);
  inputs : list ptr;
  outputs : list ptr
}.

Definition no_holdings : holdings := Holdings [] [] [] [].

Definition track (h : holdings) (c : call) : holdings :=
  match c with
  | @Call X e x =>
    match e in gpioE T return T -> holdings with
    | gpiod_chip_open _ => fun chip =>
        if Z.eqb chip NULL then h
        else Holdings (chip :: chips h) (acquired h) (inputs h) (outputs h)
    | gpiod_chip_get_line chip _ => fun line =>
        Holdings (chips h) ((line, chip) :: acquired h) (inputs h) (outputs h)
    | gpiod_line_request_input line _ => fun _ =>
        Holdings (chips h) (acquired h) (line :: inputs h) (outputs h)
    | gpiod_line_request_output line _ _ => fun _ =>
        Holdings (chips h) (acquired h) (inputs h) (line :: outputs h)
    | gpiod_chip_close chip => fun _ =>
        Holdings (filter (fun c' => negb (Z.eqb c' chip)) (chips h))
                 (acquired h) (inputs h) (outputs h)
    | _ => fun _ => h
    end x
  end.

Definition holdings_of (log : list call) : holdings := fold_left track log no_holdings.

(** Line [l] was obtained from a chip that is open. *)
Definition from_open_chip (h : holdings) (l : ptr) : bool :=
  existsb (fun a => Z.eqb (fst a) l && existsb (Z.eqb (snd a)) (chips h)) (acquired h).

(** At most one chip, one input line and one output line, and every
    requested line comes from the open chip. *)
Definition well_held (h : holdings) : bool :=
  (List.length (chips h) <=? 1)%nat
  && (List.length (inputs h) <=? 1)%nat
  && (List.length (outputs h) <=? 1)%nat
  && forallb (from_open_chip h) (inputs h ++ outputs h).

(** ** A simulated provider

    libgpiod and the kernel are not part of the repository.  To run the
    program, a board stands in for them: one chip, present or not, with
    [lines] lines of which some are held by other consumers; [feed] lists
    the levels presented at the input, one for each read to come, and
    [driven] records the levels the board drives on its lines.  The chip
    handle is address 4096 and the handle of line [o] is 8192 + o.  A call
    on a line that does not exist, is held by someone else or was not
    requested is turned down with -1. *)
Module Sim.

Record board : Type := Board {
  present : bool;
  lines : Z;
  busy : list Z;
  granted_in : list Z;
  granted_out : list Z;
  feed : list Z;
  driven : list (Z * Z);
  stderr : list string
}.

Definition chip_handle : ptr := 4096.
Definition line_handle (o : Z) : ptr := 8192 + o.
Definition offset_of (l : ptr) : Z := l - 8192.

Definition mem (o : Z) (os : list Z) : bool := existsb (Z.eqb o) os.

Definition valid (b : board) (l : ptr) : bool :=
  (0 <=? offset_of l) && (offset_of l <? lines b).

Definition free (b : board) (l : ptr) : bool :=
  valid b l && negb (mem (offset_of l) (busy b))
  && negb (mem (offset_of l) (granted_in b))
  && negb (mem (offset_of l) (granted_out b)).

Definition respond (X : Type) (e : gpioE X) (b : board) : X * board :=
  match e in gpioE T return T * board with
  | gpiod_chip_open path =>
      if present b && String.eqb path "/dev/gpiochip0"
      then (chip_handle, b) else (NULL, b)
  | perror s =>
      (tt, Board (present b) (lines b) (busy b) (granted_in b) (granted_out b)
                 (feed b) (driven b) (stderr b ++ [s]))
  | gpiod_chip_get_line chip o =>
      if Z.eqb chip chip_handle && (0 <=? o) && (o <? lines b)
      then (line_handle o, b) else (NULL, b)
  | gpiod_line_request_input l _ =>
      if free b l
      then (0, Board (present b) (lines b) (busy b) (offset_of l :: granted_in b)
                     (granted_out b) (feed b) (driven b) (stderr b))
      else (-1, b)
  | gpiod_line_request_output l _ v =>
      if free b l
      then (0, Board (present b) (lines b) (busy b) (granted_in b)
                     (offset_of l :: granted_out b) (feed b)
                     ((offset_of l, v) :: driven b) (stderr b))
      else (-1, b)
  | gpiod_line_get_value l =>
      if mem (offset_of l) (granted_in b)
      then match feed b with
           | v :: rest =>
               (v, Board (present b) (lines b) (busy b) (granted_in b)
                         (granted_out b) rest (driven b) (stderr b))
           | [] => (-1, b)
           end
      else (-1, b)
  | gpiod_line_set_value l v =>
      if mem (offset_of l) (granted_out b)
      then (0, Board (present b) (lines b) (busy b) (granted_in b)
                     (granted_out b) (feed b) ((offset_of l, v) :: driven b)
                     (stderr b))
      else (-1, b)
  | usleep _ => (0, b)
  | gpiod_chip_close _ => (tt, b)
  end.

Definition gpio : provider := Provider board respond.

(** The level the board drives on line [o], if it drives one. *)
Definition level (b : board) (o : Z) : option Z :=
  match find (fun d => Z.eqb (fst d) o) (driven b) with
  | Some d => Some (snd d)
  | None => None
  end.

(** A board with 32 free lines and the given levels at the input. *)
Definition fresh (levels : list Z) : board :=
  Board true 32 [] [] [] levels [] [].

(** The same board without its chip device. *)
Definition absent : board :=
  Board false 32 [] [] [] [] [] [].

(** A board of 8 lines only: offsets 10 and 24 do not exist on it. *)
Definition small : board :=
  Board true 8 [] [] [] [1; 0] [] [].

(** A board whose line 24 is held by another consumer. *)
Definition taken : board :=
  Board true 32 [24] [] [] [1; 0] [] [].

End Sim.

(** ** Facts about [run] *)

Section RunFacts.

Variable P : provider.

(** [run] looks at a tree through [observe] only. *)
Lemma run_observe (fuel : nat) (t t' : itree gpioE Z) (w : world P) :
  observe t = observe t' -> run P fuel t w = run P fuel t' w.
Proof.
  intros Hobs. destruct fuel as [|fuel]; simpl; [reflexivity|].
  now rewrite Hobs.
Qed.

(** A call followed by the rest of the program: the call is answered and
    logged, and the rest runs on the answer. *)
Lemma run_call (fuel : nat) (X : Type) (e : gpioE X) (rest : X -> itree gpioE Z)
    (w : world P) :
  run P (S fuel) (x <- ITree.trigger e;; rest x) w =
  let '(x, w1) := answer P e w in
  let '(log, st, w2) := run P fuel (rest x) w1 in
  (Call e x :: log, st, w2).
Proof.
  simpl. destruct (answer P e w) as [x w1].
  now rewrite (run_observe fuel _ (rest x) w1) by reflexivity.
Qed.

(** More fuel only extends the log. *)
Lemma run_log_extends (fuel extra : nat) :
  forall (t : itree gpioE Z) (w : world P),
    exists more : list call,
      log_of (run P (fuel + extra) t w) = log_of (run P fuel t w) ++ more.
Proof.
  induction fuel as [|fuel IH]; intros t w.
  - exists (log_of (run P extra t w)). reflexivity.
  - simpl. destruct (observe t) as [code | t' | X e k].
    + exists []. reflexivity.
    + apply IH.
    + destruct (answer P e w) as [x w1].
      destruct (IH (k x) w1) as [more Hmore].
      destruct (run P (fuel + extra) (k x) w1) as [[l1 s1] v1].
      destruct (run P fuel (k x) w1) as [[l2 s2] v2].
      unfold log_of in *. simpl in *. exists more. now rewrite Hmore.
Qed.

(** Once the process has exited, more fuel changes nothing. *)
Lemma run_exited_stable (fuel extra : nat) :
  forall (t : itree gpioE Z) (w : world P) (code : Z),
    status_of (run P fuel t w) = Exited code ->
    run P (fuel + extra) t w = run P fuel t w.
Proof.
  induction fuel as [|fuel IH]; intros t w code Hexit.
  - discriminate Hexit.
  - simpl in *. destruct (observe t) as [c | t' | X e k].
    + reflexivity.
    + eapply IH; eassumption.
    + destruct (answer P e w) as [x w1].
      specialize (IH (k x) w1 code).
      destruct (run P fuel (k x) w1) as [[l2 s2] v2].
      unfold status_of in *. simpl in *.
      rewrite (IH Hexit). reflexivity.
Qed.

(** One turn of the loop: read, write the level read, sleep, jump back. *)
Lemma run_steady_turn_answers (chip a b : ptr) (w : world P) (k : nat) :
  run P (S (S (S (S k)))) (steady chip a b) w =
  let '(val, w1) := answer P (gpiod_line_get_value a) w in
  let '(r_set, w2) := answer P (gpiod_line_set_value b val) w1 in
  let '(r_sleep, w3) := answer P (usleep 10000) w2 in
  (iteration_calls a b (val, r_set, r_sleep) ++ log_of (run P k (steady chip a b) w3),
   status_of (run P k (steady chip a b) w3),
   world_of (run P k (steady chip a b) w3)).
Proof.
  destruct (answer P (gpiod_line_get_value a) w) as [val w1] eqn:Hget.
  destruct (answer P (gpiod_line_set_value b val) w1) as [r_set w2] eqn:Hset.
  destruct (answer P (usleep 10000) w2) as [r_sleep w3] eqn:Hsleep.
  cbn. rewrite Hget. cbn. rewrite Hset. cbn. rewrite Hsleep. cbn.
  change (ITree.subst (fun _ : unit => after_loop chip)
            (ITree.forever (loop_body a b)))
    with (steady chip a b).
  destruct (run P k (steady chip a b) w3) as [[l s] v]. reflexivity.
Qed.

Lemma run_steady_turn (chip a b : ptr) (w : world P) :
  exists (r : Z * Z * Z) (w' : world P),
    forall k : nat,
      run P (S (S (S (S k)))) (steady chip a b) w =
      (iteration_calls a b r ++ log_of (run P k (steady chip a b) w'),
       status_of (run P k (steady chip a b) w'),
       world_of (run P k (steady chip a b) w')).
Proof.
  destruct (answer P (gpiod_line_get_value a) w) as [val w1] eqn:Hget.
  destruct (answer P (gpiod_line_set_value b val) w1) as [r_set w2] eqn:Hset.
  destruct (answer P (usleep 10000) w2) as [r_sleep w3] eqn:Hsleep.
  exists (val, r_set, r_sleep), w3. intros k.
  now rewrite run_steady_turn_answers, Hget, Hset, Hsleep.
Qed.

(** [n] turns of the loop: [n] times the three calls, then whatever the
    remaining fuel allows. *)
Lemma run_steady_turns (chip a b : ptr) (n : nat) :
  forall w : world P,
    exists (rs : list (Z * Z * Z)) (w' : world P),
      List.length rs = n /\
      forall k : nat,
        run P (n * iteration_steps + k) (steady chip a b) w =
        (flat_map (iteration_calls a b) rs ++ log_of (run P k (steady chip a b) w'),
         status_of (run P k (steady chip a b) w'),
         world_of (run P k (steady chip a b) w')).
Proof.
  induction n as [|n IH]; intros w.
  - exists [], w. split; [reflexivity|]. intros k. simpl.
    destruct (run P k (steady chip a b) w) as [[l s] v]. reflexivity.
  - destruct (run_steady_turn chip a b w) as (r & w1 & Hturn).
    destruct (IH w1) as (rs & w' & Hlen & Hrest).
    exists (r :: rs), w'. split; [simpl; now rewrite Hlen|]. intros k.
    change (S n * iteration_steps + k)%nat
      with (S (S (S (S (n * iteration_steps + k))))).
    rewrite Hturn, Hrest. unfold log_of, status_of, world_of. simpl.
    now rewrite <- app_assoc.
Qed.

(** The loop never leaves: whatever the fuel, the process is running. *)
Lemma run_steady_running (chip a b : ptr) (k : nat) (w : world P) :
  status_of (run P k (steady chip a b) w) = Running.
Proof.
  destruct (status_of (run P k (steady chip a b) w)) as [code|] eqn:Hst;
    [|reflexivity].
  pose proof (run_exited_stable k (k * 3) _ _ _ Hst) as Hstable.
  destruct (run_steady_turns chip a b k w) as (rs & w' & _ & Hk).
  specialize (Hk 0%nat). simpl in Hk.
  replace (k + k * 3)%nat with (k * iteration_steps + 0)%nat in Hstable
    by (unfold iteration_steps; lia).
  rewrite Hk in Hstable. rewrite <- Hstable in Hst. discriminate Hst.
Qed.

(** Every call made in the loop is a read, a write or a sleep. *)
Lemma run_steady_calls (chip a b : ptr) (k : nat) (w : world P) :
  Forall (fun c => is_loop_call c = true) (log_of (run P k (steady chip a b) w)).
Proof.
  destruct (run_log_extends k (k * 3) (steady chip a b) w) as [more Hmore].
  destruct (run_steady_turns chip a b k w) as (rs & w' & _ & Hk).
  specialize (Hk 0%nat). simpl in Hk.
  replace (k + k * 3)%nat with (k * iteration_steps + 0)%nat in Hmore
    by (unfold iteration_steps; lia).
  rewrite Hk in Hmore. unfold log_of at 1 in Hmore. simpl in Hmore.
  rewrite app_nil_r in Hmore.
  assert (Hall : Forall (fun c => is_loop_call c = true)
                   (flat_map (iteration_calls a b) rs)).
  { clear. induction rs as [|[[v r1] r2] rs IH]; simpl.
    - constructor.
    - repeat (constructor; [reflexivity|]). exact IH. }
  rewrite Hmore in Hall. apply Forall_app in Hall. tauto.
Qed.

(** The chip was opened: the five start-up calls, then the loop. *)
Lemma run_main_opened (w : world P) :
  opens P w ->
  exists (chip a b r_in r_out : Z) (w' : world P),
    chip <> NULL /\
    (exists w1 w2 : world P,
      a = fst (answer P (gpiod_chip_get_line chip INPUT_LINE) w1) /\
      b = fst (answer P (gpiod_chip_get_line chip OUTPUT_LINE) w2)) /\
    (forall k : nat,
      (k <= startup_steps)%nat ->
      log_of (run P k main w) = firstn k (startup_calls chip a b r_in r_out)) /\
    forall k : nat,
      run P (startup_steps + k) main w =
      (startup_calls chip a b r_in r_out ++ log_of (run P k (steady chip a b) w'),
       status_of (run P k (steady chip a b) w'),
       world_of (run P k (steady chip a b) w')).
Proof.
  unfold opens. intros Hopen.
  destruct (answer P (gpiod_chip_open GPIO_CHIP) w) as [chip w1] eqn:H1.
  simpl in Hopen.
  destruct (answer P (gpiod_chip_get_line chip INPUT_LINE) w1) as [a w2] eqn:H2.
  destruct (answer P (gpiod_chip_get_line chip OUTPUT_LINE) w2) as [b w3] eqn:H3.
  destruct (answer P (gpiod_line_request_input a "gpio_in") w3) as [r_in w4] eqn:H4.
  destruct (answer P (gpiod_line_request_output b "gpio_out" 0) w4) as [r_out w5] eqn:H5.
  exists chip, a, b, r_in, r_out, w5. split; [exact Hopen|].
  split; [exists w1, w2; now rewrite H2, H3|].
  apply Z.eqb_neq in Hopen.
  assert (Hfive : forall k : nat,
    run P (startup_steps + k) main w =
    (startup_calls chip a b r_in r_out ++ log_of (run P k (steady chip a b) w5),
     status_of (run P k (steady chip a b) w5),
     world_of (run P k (steady chip a b) w5))).
  { intros k.
    change (startup_steps + k)%nat with (S (S (S (S (S k))))).
    unfold main.
    rewrite run_call, H1, Hopen.
    rewrite run_call, H2.
    rewrite run_call, H3.
    rewrite run_call, H4.
    rewrite run_call, H5.
    fold (loop_body a b). fold (after_loop chip). fold (steady chip a b).
    destruct (run P k (steady chip a b) w5) as [[l s] v]. reflexivity. }
  split; [|exact Hfive].
  intros k Hk. unfold startup_steps in Hk.
  destruct k as [|[|[|[|[|[|k]]]]]]; try lia.
  - reflexivity.
  - unfold main. rewrite run_call, H1. reflexivity.
  - unfold main. rewrite run_call, H1, Hopen, run_call, H2. reflexivity.
  - unfold main. rewrite run_call, H1, Hopen, run_call, H2, run_call, H3.
    reflexivity.
  - unfold main.
    rewrite run_call, H1, Hopen, run_call, H2, run_call, H3, run_call, H4.
    reflexivity.
  - change 5%nat with (startup_steps + 0)%nat at 1. rewrite Hfive.
    unfold log_of. simpl. reflexivity.
Qed.

(** The chip could not be opened: the error is reported and [main]
    returns 1. *)
Lemma run_main_not_opened (w : world P) :
  fst (answer P (gpiod_chip_open GPIO_CHIP) w) = NULL ->
  exists w' : world P,
    run P 1 main w = ([Call (gpiod_chip_open GPIO_CHIP) NULL], Running, w') /\
    forall k : nat,
      run P (S (S k)) main w =
      ([Call (gpiod_chip_open GPIO_CHIP) NULL; Call (perror "Open chip failed") tt],
       match k with O => Running | S _ => Exited 1 end,
       snd (answer P (perror "Open chip failed") w')).
Proof.
  intros Hnull.
  destruct (answer P (gpiod_chip_open GPIO_CHIP) w) as [chip w1] eqn:H1.
  simpl in Hnull. subst chip.
  exists w1. unfold main. split.
  - rewrite run_call, H1. reflexivity.
  - intros k. rewrite run_call, H1. rewrite (Z.eqb_refl NULL).
    rewrite run_call.
    destruct (answer P (perror "Open chip failed") w1) as [[] w2].
    destruct k; reflexivity.
Qed.

(** After start-up the log grows by one iteration at a time; the process
    is running at each of these points. *)
Lemma run_main_iterations (w : world P) :
  opens P w ->
  exists chip a b r_in r_out : Z,
    chip <> NULL /\
    forall n : nat,
      exists (rs : list (Z * Z * Z)) (r : Z * Z * Z),
        List.length rs = n /\
        log_of (after_iterations P n w) =
          startup_calls chip a b r_in r_out ++ flat_map (iteration_calls a b) rs /\
        log_of (after_iterations P (S n) w) =
          log_of (after_iterations P n w) ++ iteration_calls a b r /\
        status_of (after_iterations P n w) = Running.
Proof.
  intros Hopen.
  destruct (run_main_opened w Hopen)
    as (chip & a & b & r_in & r_out & w0 & Hchip & _ & _ & Hrun).
  exists chip, a, b, r_in, r_out. split; [exact Hchip|]. intros n.
  destruct (run_steady_turns chip a b n w0) as (rs & w1 & Hlen & Hturns).
  destruct (run_steady_turn chip a b w1) as (r & w2 & Hturn).
  exists rs, r. unfold after_iterations.
  replace (S n * iteration_steps)%nat with (n * iteration_steps + 4)%nat
    by (unfold iteration_steps; lia).
  replace (n * iteration_steps)%nat with (n * iteration_steps + 0)%nat at 1 3 4 by lia.
  rewrite !Hrun, !Hturns, (Hturn 0%nat).
  unfold log_of, status_of, world_of. simpl.
  repeat split.
  - exact Hlen.
  - now rewrite app_nil_r.
  - now rewrite !app_nil_r.
Qed.

End RunFacts.

(** ** Facts about logs *)

Lemma collect_app {A : Type} (f : call -> option A) (l1 l2 : list call) :
  collect f (l1 ++ l2) = collect f l1 ++ collect f l2.
Proof.
  induction l1 as [|c l1 IH]; simpl; [reflexivity|].
  destruct (f c); simpl; now rewrite IH.
Qed.

(** The levels read and the levels written over whole iterations are the
    same list: the first components of the rounds. *)
Lemma values_of_iterations (a b : ptr) (rs : list (Z * Z * Z)) :
  values_read (flat_map (iteration_calls a b) rs) = map (fun r => fst (fst r)) rs /\
  values_written (flat_map (iteration_calls a b) rs) = map (fun r => fst (fst r)) rs.
Proof.
  induction rs as [|[[val r_set] r_sleep] rs [IHr IHw]]; simpl; [split; reflexivity|].
  unfold values_read, values_written in *. simpl. now rewrite IHr, IHw.
Qed.

Lemma writes_of_iterations (a b : ptr) (rs : list (Z * Z * Z)) :
  List.length (filter is_write (flat_map (iteration_calls a b) rs)) = List.length rs.
Proof.
  induction rs as [|[[val r_set] r_sleep] rs IH]; simpl; [reflexivity|].
  now rewrite IH.
Qed.


(** After an iteration, the value of the output line is the level that
    iteration read. *)
Lemma line_value_after_iteration (log : list call) (a b : ptr) (val r_set r_sleep : Z) :
  line_value (log ++ iteration_calls a b (val, r_set, r_sleep)) b = Some val /\
  last_read (log ++ iteration_calls a b (val, r_set, r_sleep)) = Some val.
Proof.
  unfold line_value, last_read, values_read. rewrite !collect_app. simpl.
  rewrite Z.eqb_refl. rewrite !map_app. simpl. now rewrite !last_last.
Qed.

(** The loop calls open nothing, acquire nothing and hold nothing new. *)
Lemma loop_calls_open_nothing (log : list call) :
  Forall (fun c => is_loop_call c = true) log ->
  paths_opened log = [] /\ offsets_acquired log = [] /\
  Forall (fun c => is_close c = false) log /\
  forall h : holdings, fold_left track log h = h.
Proof.
  induction 1 as [|c log Hc _ (IHp & IHo & IHc & IHh)].
  - repeat split. constructor.
  - destruct c as [X e x]. unfold paths_opened, offsets_acquired in *.
    destruct e; try discriminate Hc; simpl; repeat split; auto.
Qed.

(** What holds of every call of a log holds of every call of its start. *)
Lemma Forall_start (Q : call -> Prop) (n : nat) (log : list call) :
  Forall Q log -> Forall Q (firstn n log).
Proof.
  intros Hall. rewrite <- (firstn_skipn n log) in Hall.
  apply Forall_app in Hall. tauto.
Qed.

(** ** The program at an arbitrary point of its execution *)

Section AnyFuel.

Variable P : provider.

(** With the chip open, at any point the process is running, and its log is
    the start-up sequence as far as it got, followed by calls of the loop. *)
Lemma run_main_any_fuel (w : world P) :
  opens P w ->
  exists chip a b r_in r_out : Z,
    chip <> NULL /\
    forall fuel : nat,
      status_of (run P fuel main w) = Running /\
      exists tail : list call,
        Forall (fun c => is_loop_call c = true) tail /\
        log_of (run P fuel main w) =
          firstn fuel (startup_calls chip a b r_in r_out) ++ tail.
Proof.
  intros Hopen.
  destruct (run_main_opened P w Hopen)
    as (chip & a & b & r_in & r_out & w0 & Hchip & _ & Hsmall & Hfive).
  exists chip, a, b, r_in, r_out. split; [exact Hchip|]. intros fuel. split.
  - destruct (status_of (run P fuel main w)) as [code|] eqn:Hst; [|reflexivity].
    pose proof (run_exited_stable P fuel startup_steps _ _ _ Hst) as Hstable.
    rewrite Nat.add_comm, Hfive in Hstable. rewrite <- Hstable in Hst.
    unfold status_of at 1 in Hst. simpl in Hst.
    rewrite run_steady_running in Hst. discriminate Hst.
  - destruct (Nat.le_gt_cases fuel startup_steps) as [Hle | Hgt].
    + exists []. split; [constructor|].
      rewrite app_nil_r. now apply Hsmall.
    + exists (log_of (run P (fuel - startup_steps) (steady chip a b) w0)).
      split; [apply run_steady_calls|].
      replace fuel with (startup_steps + (fuel - startup_steps))%nat at 1 by lia.
      rewrite Hfive. unfold log_of at 1. simpl fst.
      rewrite firstn_all2; [reflexivity|].
      unfold startup_steps in Hgt. simpl. lia.
Qed.

(** With no chip, the log is the failed open and then the error report. *)
Lemma run_main_no_chip (w : world P) (fuel : nat) :
  fst (answer P (gpiod_chip_open GPIO_CHIP) w) = NULL ->
  log_of (run P fuel main w) =
  firstn fuel [Call (gpiod_chip_open GPIO_CHIP) NULL;
               Call (perror "Open chip failed") tt].
Proof.
  intros Hnull.
  destruct (run_main_not_opened P w Hnull) as (w' & Hone & Htwo).
  destruct fuel as [|[|fuel]].
  - reflexivity.
  - now rewrite Hone.
  - rewrite Htwo. unfold log_of. simpl. now destruct fuel.
Qed.

(** After any number of iterations the levels written are the levels
    read. *)
Lemma run_main_writes_what_it_reads (w : world P) (n : nat) :
  opens P w ->
  values_written (log_of (after_iterations P n w)) =
  values_read (log_of (after_iterations P n w)).
Proof.
  intros Hopen.
  destruct (run_main_iterations P w Hopen)
    as (chip & a & b & r_in & r_out & _ & Hiter).
  destruct (Hiter n) as (rs & _ & _ & Hlog & _).
  destruct (values_of_iterations a b rs) as [Hr Hw].
  rewrite Hlog. unfold values_written, values_read in *.
  now rewrite !collect_app, Hr, Hw.
Qed.

End AnyFuel.

(** ** What [main] can return *)

Lemma replay_same (X : Type) (e : gpioE X) (x : X) : replay X X e e x = x.
Proof. destruct e; try reflexivity; now destruct x. Qed.

(** A leaf of a program is reached by running it against the provider
    that replays the answers on the path to the leaf. *)
Lemma leaf_is_reached (code : Z) (t : itree gpioE Z) :
  Leaf code t ->
  exists (script : list call) (fuel : nat),
    status_of (run scripted fuel t script) = Exited code.
Proof.
  induction 1 as [t Hobs
                 | t u Hobs _ (script & fuel & IH)
                 | X e t k x Hobs _ (script & fuel & IH)].
  - exists [], 1%nat. simpl. now rewrite Hobs.
  - exists script, (S fuel). simpl. now rewrite Hobs.
  - exists (Call e x :: script), (S fuel). simpl. rewrite Hobs. simpl.
    rewrite replay_same.
    destruct (run scripted fuel (k x) script) as [[l s] v]. exact IH.
Qed.

(** The tree of [main] has the leaf 1, behind a failed open. *)
Lemma main_can_return_1 : Leaf 1 main.
Proof.
  eapply (LeafVis 1 (gpiod_chip_open GPIO_CHIP) main _ NULL); [cbn; reflexivity|].
  eapply (LeafVis 1 (perror "Open chip failed") _ _ tt); [cbn; reflexivity|].
  apply LeafRet. reflexivity.
Qed.

(** And it has no other leaf: whatever the answers to its calls, the only
    value [main] ever returns is 1; the [return 0] is out of reach. *)
Lemma main_returns_only_1 (code : Z) : Leaf code main -> code = 1.
Proof.
  intros Hleaf.
  destruct (leaf_is_reached code main Hleaf) as (script & fuel & Hrun).
  destruct (Z.eq_dec (fst (answer scripted (gpiod_chip_open GPIO_CHIP) script)) NULL)
    as [Hnull | Hopen].
  - destruct (run_main_not_opened scripted script Hnull) as (w' & Hone & Htwo).
    destruct fuel as [|[|fuel]].
    + discriminate Hrun.
    + rewrite Hone in Hrun. discriminate Hrun.
    + rewrite Htwo in Hrun. unfold status_of in Hrun. simpl in Hrun.
      destruct fuel; [discriminate Hrun|]. now inversion Hrun.
  - destruct (run_main_any_fuel scripted script Hopen)
      as (chip & a & b & r_in & r_out & _ & Hany).
    destruct (Hany fuel) as [Hst _]. rewrite Hst in Hrun. discriminate Hrun.
Qed.

(** ** Facts about holdings *)

(** The holdings shown by a log that ends in calls of the loop are those
    of the log before them. *)
Lemma holdings_of_loop_tail (log tail : list call) :
  Forall (fun c => is_loop_call c = true) tail ->
  holdings_of (log ++ tail) = holdings_of log.
Proof.
  intros Htail. unfold holdings_of. rewrite fold_left_app.
  now apply loop_calls_open_nothing.
Qed.

(** The holdings along the start-up sequence. *)
Lemma holdings_of_startup (k : nat) (chip a b r_in r_out : Z) :
  chip <> NULL ->
  holdings_of (firstn k (startup_calls chip a b r_in r_out)) =
  match k with
  | 0%nat => no_holdings
  | 1%nat => Holdings [chip] [] [] []
  | 2%nat => Holdings [chip] [(a, chip)] [] []
  | 3%nat => Holdings [chip] [(b, chip); (a, chip)] [] []
  | 4%nat => Holdings [chip] [(b, chip); (a, chip)] [a] []
  | _ => Holdings [chip] [(b, chip); (a, chip)] [a] [b]
  end.
Proof.
  intros Hchip. apply Z.eqb_neq in Hchip.
  destruct k as [|[|[|[|[|k]]]]]; unfold holdings_of; simpl;
    rewrite ?firstn_nil; simpl; rewrite ?Hchip; reflexivity.
Qed.

(** What the check [well_held] establishes. *)
Lemma well_held_sound (h : holdings) :
  well_held h = true ->
  (List.length (chips h) <= 1)%nat /\
  (List.length (inputs h) <= 1)%nat /\
  (List.length (outputs h) <= 1)%nat /\
  forall l : ptr,
    In l (inputs h ++ outputs h) ->
    exists chip : ptr, In chip (chips h) /\ In (l, chip) (acquired h).
Proof.
  unfold well_held. rewrite !andb_true_iff, !Nat.leb_le, forallb_forall.
  intros [[[Hc Hi] Ho] Hfrom]. repeat split; try assumption.
  intros l Hl. specialize (Hfrom l Hl). unfold from_open_chip in Hfrom.
  apply existsb_exists in Hfrom. destruct Hfrom as ([l' chip] & Hacq & Hboth).
  apply andb_true_iff in Hboth. destruct Hboth as [Hl' Hchip]. simpl in *.
  apply Z.eqb_eq in Hl'. subst l'.
  apply existsb_exists in Hchip. destruct Hchip as (chip' & Hin & Heq).
  apply Z.eqb_eq in Heq. subst chip'. now exists chip.
Qed.

(** ** The simulated board and the log agree *)

Lemma line_value_cons (c : call) (log : list call) (l : ptr) :
  line_value (c :: log) l =
  match line_value log l with
  | Some v => Some v
  | None => drives l c
  end.
Proof.
  unfold line_value. simpl.
  destruct (drives l c) as [v|]; simpl.
  - destruct (collect (drives l) log) as [|v' vs] eqn:Hvs; [reflexivity|].
    simpl map.
    change (last (Some v :: Some v' :: map Some vs) None)
      with (last (Some v' :: map Some vs) None).
    assert (Hlast : exists v'', last (Some v' :: map Some vs) None = Some v'').
    { clear. revert v'. induction vs as [|v2 vs IH]; intros v'.
      - now exists v'.
      - destruct (IH v2) as [v'' Hv'']. exists v''. exact Hv''. }
    destruct Hlast as [v'' Hv'']. now rewrite Hv''.
  - now destruct (last (map Some (collect (drives l) log)) None).
Qed.

(** One call on the board: unless it is a refused call on [l], the level
    the board drives on the line of [l] afterwards is the level the call put
    on [l], or the level before when it put none. *)
Lemma sim_level_step (X : Type) (e : gpioE X) (b : Sim.board) (l : ptr) :
  refused l (Call e (fst (Sim.respond X e b))) = false ->
  Sim.level (snd (Sim.respond X e b)) (Sim.offset_of l) =
  match drives l (Call e (fst (Sim.respond X e b))) with
  | Some v => Some v
  | None => Sim.level b (Sim.offset_of l)
  end.
Proof.
  destruct e; cbn [Sim.respond refused drives].
  - destruct (Sim.present b && String.eqb path "/dev/gpiochip0"); reflexivity.
  - reflexivity.
  - destruct (Z.eqb chip Sim.chip_handle && (0 <=? offset) && (offset <? Sim.lines b));
      reflexivity.
  - destruct (Sim.free b line); reflexivity.
  - destruct (Z.eqb line l) eqn:Hl.
    + apply Z.eqb_eq in Hl. subst line.
      destruct (Sim.free b l); cbn [fst snd]; [intros _|discriminate].
      unfold Sim.level. cbn [Sim.driven find fst snd].
      now rewrite Z.eqb_refl.
    + intros _. apply Z.eqb_neq in Hl.
      destruct (Sim.free b line); cbn [fst snd]; [|reflexivity].
      unfold Sim.level. cbn [Sim.driven find fst snd].
      replace (Z.eqb (Sim.offset_of line) (Sim.offset_of l)) with false;
        [reflexivity|].
      symmetry. apply Z.eqb_neq. unfold Sim.offset_of. lia.
  - destruct (Sim.mem (Sim.offset_of line) (Sim.granted_in b)); [|reflexivity].
    destruct (Sim.feed b); reflexivity.
  - destruct (Z.eqb line l) eqn:Hl.
    + apply Z.eqb_eq in Hl. subst line.
      destruct (Sim.mem (Sim.offset_of l) (Sim.granted_out b)); cbn [fst snd];
        [intros _|discriminate].
      unfold Sim.level. cbn [Sim.driven find fst snd].
      now rewrite Z.eqb_refl.
    + intros _. apply Z.eqb_neq in Hl.
      destruct (Sim.mem (Sim.offset_of line) (Sim.granted_out b)); cbn [fst snd];
        [|reflexivity].
      unfold Sim.level. cbn [Sim.driven find fst snd].
      replace (Z.eqb (Sim.offset_of line) (Sim.offset_of l)) with false;
        [reflexivity|].
      symmetry. apply Z.eqb_neq. unfold Sim.offset_of. lia.
  - reflexivity.
  - reflexivity.
Qed.

(** Whatever program runs on the board: as long as no call putting a level
    on [l] is refused, the level the board drives on that line is the value
    of [l] read off the log. *)
Lemma sim_level_follows_log (l : ptr) (fuel : nat) :
  forall (t : itree gpioE Z) (b : Sim.board),
    forallb (fun c => negb (refused l c)) (log_of (run Sim.gpio fuel t b)) = true ->
    Sim.level (world_of (run Sim.gpio fuel t b)) (Sim.offset_of l) =
    match line_value (log_of (run Sim.gpio fuel t b)) l with
    | Some v => Some v
    | None => Sim.level b (Sim.offset_of l)
    end.
Proof.
  induction fuel as [|fuel IH]; intros t b; [reflexivity|].
  cbn [run]. destruct (observe t) as [code | t' | X e k].
  - reflexivity.
  - apply IH.
  - change (answer Sim.gpio e b) with (Sim.respond X e b).
    pose proof (sim_level_step X e b l) as Hstep.
    destruct (Sim.respond X e b) as [x b1]. cbn [fst snd] in Hstep.
    specialize (IH (k x) b1).
    destruct (run Sim.gpio fuel (k x) b1) as [[log st] b2].
    unfold log_of, world_of in *. cbn [fst snd forallb] in *.
    intros Hok. apply andb_true_iff in Hok. destruct Hok as [Hc Hlog].
    apply negb_true_iff in Hc.
    rewrite line_value_cons, (IH Hlog), (Hstep Hc).
    destruct (line_value log l); reflexivity.
Qed.

(** The board once the program has requested its two lines. *)
Lemma sim_fresh_startup (levels : list Z) (k : nat) :
  run Sim.gpio (startup_steps + k) main (Sim.fresh levels) =
  (startup_calls Sim.chip_handle (Sim.line_handle 10) (Sim.line_handle 24) 0 0 ++
     log_of (run Sim.gpio k
               (steady Sim.chip_handle (Sim.line_handle 10) (Sim.line_handle 24))
               (Sim.Board true 32 [] [10] [24] levels [(24, 0)] [])),
   status_of (run Sim.gpio k
               (steady Sim.chip_handle (Sim.line_handle 10) (Sim.line_handle 24))
               (Sim.Board true 32 [] [10] [24] levels [(24, 0)] [])),
   world_of (run Sim.gpio k
               (steady Sim.chip_handle (Sim.line_handle 10) (Sim.line_handle 24))
               (Sim.Board true 32 [] [10] [24] levels [(24, 0)] []))).
Proof.
  change (startup_steps + k)%nat with (S (S (S (S (S k))))).
  unfold main.
  rewrite run_call.
  replace (answer Sim.gpio (gpiod_chip_open GPIO_CHIP) (Sim.fresh levels))
    with (Sim.chip_handle, Sim.fresh levels) by reflexivity.
  cbv beta iota. change (Z.eqb Sim.chip_handle NULL) with false. cbv beta iota.
  rewrite run_call.
  replace (answer Sim.gpio (gpiod_chip_get_line Sim.chip_handle INPUT_LINE)
             (Sim.fresh levels))
    with (Sim.line_handle 10, Sim.fresh levels) by reflexivity.
  cbv beta iota.
  rewrite run_call.
  replace (answer Sim.gpio (gpiod_chip_get_line Sim.chip_handle OUTPUT_LINE)
             (Sim.fresh levels))
    with (Sim.line_handle 24, Sim.fresh levels) by reflexivity.
  cbv beta iota.
  rewrite run_call.
  replace (answer Sim.gpio (gpiod_line_request_input (Sim.line_handle 10) "gpio_in")
             (Sim.fresh levels))
    with (0, Sim.Board true 32 [] [10] [] levels [] []) by reflexivity.
  cbv beta iota.
  rewrite run_call.
  replace (answer Sim.gpio
             (gpiod_line_request_output (Sim.line_handle 24) "gpio_out" 0)
             (Sim.Board true 32 [] [10] [] levels [] []))
    with (0, Sim.Board true 32 [] [10] [24] levels [(24, 0)] []) by reflexivity.
  cbv beta iota.
  fold (loop_body (Sim.line_handle 10) (Sim.line_handle 24)).
  fold (after_loop Sim.chip_handle).
  fold (steady Sim.chip_handle (Sim.line_handle 10) (Sim.line_handle 24)).
  destruct (run Sim.gpio k _ _) as [[l s] v]. reflexivity.
Qed.

(** In the loop the board grants every write on line 24. *)
Lemma sim_steady_granted (n : nat) :
  forall (levels : list Z) (driven : list (Z * Z)),
    forallb (fun c => negb (refused (Sim.line_handle 24) c))
      (log_of (run Sim.gpio (n * iteration_steps)
                 (steady Sim.chip_handle (Sim.line_handle 10) (Sim.line_handle 24))
                 (Sim.Board true 32 [] [10] [24] levels driven []))) = true.
Proof.
  induction n as [|n IH]; intros levels driven; [reflexivity|].
  change (S n * iteration_steps)%nat with (S (S (S (S (n * iteration_steps))))).
  rewrite run_steady_turn_answers.
  destruct levels as [|v levels].
  - specialize (IH [] ((24, -1) :: driven)).
    change (answer Sim.gpio (gpiod_line_get_value (Sim.line_handle 10))
              (Sim.Board true 32 [] [10] [24] [] driven []))
      with (-1, Sim.Board true 32 [] [10] [24] [] driven []).
    cbv beta iota.
    change (answer Sim.gpio (gpiod_line_set_value (Sim.line_handle 24) (-1))
              (Sim.Board true 32 [] [10] [24] [] driven []))
      with (0, Sim.Board true 32 [] [10] [24] [] ((24, -1) :: driven) []).
    cbv beta iota.
    change (answer Sim.gpio (usleep 10000)
              (Sim.Board true 32 [] [10] [24] [] ((24, -1) :: driven) []))
      with (0, Sim.Board true 32 [] [10] [24] [] ((24, -1) :: driven) []).
    cbv beta iota. unfold log_of at 1. cbn [fst].
    unfold iteration_calls. rewrite forallb_app. rewrite IH. reflexivity.
  - specialize (IH levels ((24, v) :: driven)).
    change (answer Sim.gpio (gpiod_line_get_value (Sim.line_handle 10))
              (Sim.Board true 32 [] [10] [24] (v :: levels) driven []))
      with (v, Sim.Board true 32 [] [10] [24] levels driven []).
    cbv beta iota.
    change (answer Sim.gpio (gpiod_line_set_value (Sim.line_handle 24) v)
              (Sim.Board true 32 [] [10] [24] levels driven []))
      with (0, Sim.Board true 32 [] [10] [24] levels ((24, v) :: driven) []).
    cbv beta iota.
    change (answer Sim.gpio (usleep 10000)
              (Sim.Board true 32 [] [10] [24] levels ((24, v) :: driven) []))
      with (0, Sim.Board true 32 [] [10] [24] levels ((24, v) :: driven) []).
    cbv beta iota. unfold log_of at 1. cbn [fst].
    unfold iteration_calls. rewrite forallb_app. rewrite IH. reflexivity.
Qed.

(** On a fresh board no call of the program on line 24 is refused. *)
Lemma sim_fresh_granted (levels : list Z) (fuel : nat) :
  forallb (fun c => negb (refused (Sim.line_handle 24) c))
    (log_of (run Sim.gpio fuel main (Sim.fresh levels))) = true.
Proof.
  destruct (run_log_extends Sim.gpio fuel (startup_steps + fuel * 3) main
              (Sim.fresh levels)) as [more Hmore].
  replace (fuel + (startup_steps + fuel * 3))%nat
    with (startup_steps + fuel * iteration_steps)%nat in Hmore
    by (unfold iteration_steps; lia).
  rewrite sim_fresh_startup in Hmore. unfold log_of at 1 in Hmore.
  cbn [fst] in Hmore.
  assert (Hall : forallb (fun c => negb (refused (Sim.line_handle 24) c))
                   (log_of (run Sim.gpio fuel main (Sim.fresh levels)) ++ more)
                 = true).
  { rewrite <- Hmore, forallb_app, sim_steady_granted. reflexivity. }
  rewrite forallb_app in Hall. apply andb_true_iff in Hall. tauto.
Qed.

(** On a fresh board, whatever the levels at the input and at every point
    of the execution, the level the board drives on line 24 is the value of
    the output line read off the log. *)
Lemma sim_board_mirrors (levels : list Z) (fuel : nat) :
  Sim.level (world_of (run Sim.gpio fuel main (Sim.fresh levels))) 24 =
  line_value (log_of (run Sim.gpio fuel main (Sim.fresh levels))) (Sim.line_handle 24).
Proof.
  pose proof (sim_level_follows_log (Sim.line_handle 24) fuel main
                (Sim.fresh levels) (sim_fresh_granted levels fuel)) as Hfollows.
  change (Sim.offset_of (Sim.line_handle 24)) with 24 in Hfollows.
  rewrite Hfollows.
  now destruct (line_value _ _).
Qed.

(** The simulated board hands out a different handle for each line. *)
Lemma sim_distinct_handles : distinct_handles Sim.gpio.
Proof.
  intros chip o1 o2 b1 b2 Hne.
  cbv [answer Sim.gpio Sim.respond Sim.line_handle NULL].
  destruct (Z.eqb chip Sim.chip_handle && (0 <=? o1) && (o1 <? Sim.lines b1))
    eqn:H1; cbn [fst]; [|congruence].
  intros _.
  apply andb_true_iff in H1. destruct H1 as [H1 _].
  apply andb_true_iff in H1. destruct H1 as [_ H1]. apply Z.leb_le in H1.
  destruct (Z.eqb chip Sim.chip_handle && (0 <=? o2) && (o2 <? Sim.lines b2));
    cbn [fst]; lia.
Qed.

(** On a fresh board the loop reads the levels presented at the input, one
    after the other. *)
Lemma sim_steady_reads (levels : list Z) :
  forall driven : list (Z * Z),
    values_read
      (log_of (run Sim.gpio (List.length levels * iteration_steps)
                 (steady Sim.chip_handle (Sim.line_handle 10) (Sim.line_handle 24))
                 (Sim.Board true 32 [] [10] [24] levels driven []))) = levels.
Proof.
  induction levels as [|v levels IH]; intros driven; [reflexivity|].
  specialize (IH ((24, v) :: driven)).
  change (List.length (v :: levels) * iteration_steps)%nat
    with (S (S (S (S (List.length levels * iteration_steps))))).
  rewrite run_steady_turn_answers.
  change (answer Sim.gpio (gpiod_line_get_value (Sim.line_handle 10))
            (Sim.Board true 32 [] [10] [24] (v :: levels) driven []))
    with (v, Sim.Board true 32 [] [10] [24] levels driven []).
  cbv beta iota.
  change (answer Sim.gpio (gpiod_line_set_value (Sim.line_handle 24) v)
            (Sim.Board true 32 [] [10] [24] levels driven []))
    with (0, Sim.Board true 32 [] [10] [24] levels ((24, v) :: driven) []).
  cbv beta iota.
  change (answer Sim.gpio (usleep 10000)
            (Sim.Board true 32 [] [10] [24] levels ((24, v) :: driven) []))
    with (0, Sim.Board true 32 [] [10] [24] levels ((24, v) :: driven) []).
  cbv beta iota. unfold log_of at 1. cbn [fst].
  unfold values_read in *. rewrite collect_app, IH. reflexivity.
Qed.

(** Whatever sequence of levels is presented at the input of a fresh board,
    after as many iterations the levels written on the output are that
    sequence. *)
Lemma sim_writes_are_levels (levels : list Z) :
  values_written
    (log_of (after_iterations Sim.gpio (List.length levels) (Sim.fresh levels)))
  = levels.
Proof.
  rewrite run_main_writes_what_it_reads by (vm_compute; discriminate).
  unfold after_iterations. rewrite sim_fresh_startup.
  unfold log_of at 1. cbn [fst].
  unfold values_read. rewrite collect_app.
  apply (sim_steady_reads levels [(24, 0)]).
Qed.

(** On any board, if the request for output is granted (it returns 0), the
    board drives 0 on the requested line when the loop starts. *)
Lemma sim_granted_output_is_low (b : Sim.board) (chip in_line out_line r_in : Z) :
  log_of (after_iterations Sim.gpio 0 b) = startup_calls chip in_line out_line r_in 0 ->
  Sim.level (world_of (after_iterations Sim.gpio 0 b)) (Sim.offset_of out_line) = Some 0.
Proof.
  intros Hlog. unfold after_iterations in *.
  rewrite (sim_level_follows_log out_line).
  - rewrite Hlog. unfold line_value. cbn [startup_calls collect drives].
    rewrite Z.eqb_refl. reflexivity.
  - rewrite Hlog. cbn [startup_calls forallb refused].
    rewrite Z.eqb_refl. reflexivity.
Qed.

(** ** Inside an iteration *)

Section Inside.

Variable P : provider.

(** The loop at any point: whole iterations, then the calls of the
    iteration under way. *)
Lemma run_steady_partial (chip a b : ptr) (k : nat) (w : world P) :
  exists (rs : list (Z * Z * Z)) (part : list call),
    unfinished a b part /\
    log_of (run P k (steady chip a b) w) =
      flat_map (iteration_calls a b) rs ++ part.
Proof.
  pose proof (Nat.div_mod_eq k 4) as Hk.
  pose proof (Nat.mod_upper_bound k 4 ltac:(discriminate)) as Hj.
  destruct (run_steady_turns P chip a b (k / 4) w) as (rs & w' & _ & Hturns).
  specialize (Hturns (k mod 4)%nat).
  replace (k / 4 * iteration_steps + k mod 4)%nat with k in Hturns
    by (unfold iteration_steps; lia).
  rewrite Hturns. unfold log_of at 1. cbn [fst].
  clear Hturns Hk.
  destruct (answer P (gpiod_line_get_value a) w') as [val w1] eqn:Hget.
  destruct (answer P (gpiod_line_set_value b val) w1) as [r_set w2] eqn:Hset.
  destruct (answer P (usleep 10000) w2) as [r_sleep w3] eqn:Hsleep.
  destruct (k mod 4)%nat as [|[|[|[|j]]]]; try lia.
  - exists rs, []. split; [now left|reflexivity].
  - exists rs, [Call (gpiod_line_get_value a) val].
    split; [right; left; now exists val|].
    cbn. rewrite Hget. reflexivity.
  - exists rs, [Call (gpiod_line_get_value a) val;
                Call (gpiod_line_set_value b val) r_set].
    split; [right; right; now exists val, r_set|].
    cbn. rewrite Hget. cbn. rewrite Hset. reflexivity.
  - exists (rs ++ [(val, r_set, r_sleep)]), [].
    split; [now left|].
    cbn. rewrite Hget. cbn. rewrite Hset. cbn. rewrite Hsleep.
    rewrite flat_map_app. cbn. now rewrite app_nil_r.
Qed.

(** The whole program at any point, with the chip open: a start of the
    start-up sequence, or the whole of it followed by iterations and the
    iteration under way. *)
Lemma run_main_shape (w : world P) :
  opens P w ->
  exists chip a b r_in r_out : Z,
    chip <> NULL /\
    log_of (after_iterations P 0 w) = startup_calls chip a b r_in r_out /\
    (forall n : nat,
       exists rs : list (Z * Z * Z),
         List.length rs = n /\
         log_of (after_iterations P n w) =
           startup_calls chip a b r_in r_out ++ flat_map (iteration_calls a b) rs) /\
    forall fuel : nat,
      ((fuel <= startup_steps)%nat /\
       log_of (run P fuel main w) = firstn fuel (startup_calls chip a b r_in r_out)) \/
      ((startup_steps <= fuel)%nat /\
       exists (rs : list (Z * Z * Z)) (part : list call),
         unfinished a b part /\
         log_of (run P fuel main w) =
           startup_calls chip a b r_in r_out ++
           flat_map (iteration_calls a b) rs ++ part).
Proof.
  intros Hopen.
  destruct (run_main_opened P w Hopen)
    as (chip & a & b & r_in & r_out & w0 & Hchip & _ & Hsmall & Hfive).
  exists chip, a, b, r_in, r_out. split; [exact Hchip|]. split; [|split].
  - unfold after_iterations. simpl Nat.add. now rewrite (Hsmall 5%nat (le_n _)).
  - intros n. unfold after_iterations. rewrite Hfive.
    destruct (run_steady_turns P chip a b n w0) as (rs & w1 & Hlen & Hturns).
    specialize (Hturns 0%nat). rewrite Nat.add_0_r in Hturns.
    exists rs. split; [exact Hlen|]. rewrite Hturns.
    unfold log_of. cbn [fst run]. now rewrite app_nil_r.
  - intros fuel.
    destruct (Nat.le_gt_cases fuel startup_steps) as [Hle | Hgt].
    + left. split; [exact Hle|]. now apply Hsmall.
    + right. split; [lia|].
      destruct (run_steady_partial chip a b (fuel - startup_steps) w0)
        as (rs & part & Hpart & Hlog).
      exists rs, part. split; [exact Hpart|].
      replace fuel with (startup_steps + (fuel - startup_steps))%nat at 1 by lia.
      rewrite Hfive. unfold log_of at 1. cbn [fst]. now rewrite Hlog.
Qed.

End Inside.

(** ** Trying the program on the simulated board *)

(** Two iterations on a fresh board with levels 1 then 0 at the input. *)
Example run_on_fresh_board :
  log_of (after_iterations Sim.gpio 2 (Sim.fresh [1; 0])) =
  [ Call (gpiod_chip_open "/dev/gpiochip0") 4096;
    Call (gpiod_chip_get_line 4096 10) 8202;
    Call (gpiod_chip_get_line 4096 24) 8216;
    Call (gpiod_line_request_input 8202 "gpio_in") 0;
    Call (gpiod_line_request_output 8216 "gpio_out" 0) 0;
    Call (gpiod_line_get_value 8202) 1;
    Call (gpiod_line_set_value 8216 1) 0;
    Call (usleep 10000) 0;
    Call (gpiod_line_get_value 8202) 0;
    Call (gpiod_line_set_value 8216 0) 0;
    Call (usleep 10000) 0 ].
Proof. reflexivity. Qed.

(** The level the board drives on line 24: 0 at loop entry, then the level
    read by each iteration. *)
Example levels_on_fresh_board :
  map (fun n => Sim.level (world_of (after_iterations Sim.gpio n (Sim.fresh [1; 0; 1]))) 24)
      [0; 1; 2; 3]%nat =
  [Some 0; Some 1; Some 0; Some 1].
Proof. reflexivity. Qed.

(** Without the chip device: the failed open, the report, exit status 1. *)
Example run_without_chip :
  run Sim.gpio 10 main Sim.absent =
  ([ Call (gpiod_chip_open "/dev/gpiochip0") 0;
     Call (perror "Open chip failed") tt ],
   Exited 1,
   Sim.Board false 32 [] [] [] [] [] ["Open chip failed"]).
Proof. reflexivity. Qed.

(** With line 24 held by someone else the request for output and the
    writes are turned down; the program goes on reading and writing. *)
Example run_on_taken_board :
  log_of (after_iterations Sim.gpio 1 Sim.taken) =
  [ Call (gpiod_chip_open "/dev/gpiochip0") 4096;
    Call (gpiod_chip_get_line 4096 10) 8202;
    Call (gpiod_chip_get_line 4096 24) 8216;
    Call (gpiod_line_request_input 8202 "gpio_in") 0;
    Call (gpiod_line_request_output 8216 "gpio_out" 0) (-1);
    Call (gpiod_line_get_value 8202) 1;
    Call (gpiod_line_set_value 8216 1) (-1);
    Call (usleep 10000) 0 ].
Proof. reflexivity. Qed.

(** On a board of 8 lines both get-line calls fail and so does every call
    after them; the program goes on. *)
Example run_on_small_board :
  log_of (after_iterations Sim.gpio 1 Sim.small) =
  [ Call (gpiod_chip_open "/dev/gpiochip0") 4096;
    Call (gpiod_chip_get_line 4096 10) 0;
    Call (gpiod_chip_get_line 4096 24) 0;
    Call (gpiod_line_request_input 0 "gpio_in") (-1);
    Call (gpiod_line_request_output 0 "gpio_out" 0) (-1);
    Call (gpiod_line_get_value 0) (-1);
    Call (gpiod_line_set_value 0 (-1)) (-1);
    Call (usleep 10000) 0 ].
Proof. reflexivity. Qed.

(** ** The loop reads the input line and writes the output line *)

(** Over whole iterations the levels read on [a] and the levels written on
    [b] are the first components of the rounds. *)
Lemma values_on_of_iterations (a b : ptr) (rs : list (Z * Z * Z)) :
  values_read_on a (flat_map (iteration_calls a b) rs) = map (fun r => fst (fst r)) rs /\
  values_written_on b (flat_map (iteration_calls a b) rs) = map (fun r => fst (fst r)) rs.
Proof.
  induction rs as [|[[val r_set] r_sleep] rs [IHr IHw]]; simpl; [split; reflexivity|].
  unfold values_read_on, values_written_on in *. simpl.
  now rewrite !Z.eqb_refl, IHr, IHw.
Qed.

(** With the chip open: the handles of the start-up sequence are the ones
    the loop works on.  After [n] iterations there have been [n] reads, all
    on the input line, and [n] writes, all on the output line, of the same
    levels; the next iteration reads the input line and writes the level
    read to the output line. *)
Lemma run_main_mirror (P : provider) (w : world P) :
  opens P w ->
  exists chip a b r_in r_out : Z,
    log_of (after_iterations P 0 w) = startup_calls chip a b r_in r_out /\
    forall n : nat,
      values_read_on a (log_of (after_iterations P n w)) =
        values_read (log_of (after_iterations P n w)) /\
      values_written_on b (log_of (after_iterations P n w)) =
        values_written (log_of (after_iterations P n w)) /\
      values_written_on b (log_of (after_iterations P n w)) =
        values_read_on a (log_of (after_iterations P n w)) /\
      List.length (values_read_on a (log_of (after_iterations P n w))) = n /\
      exists val r_set r_sleep : Z,
        log_of (after_iterations P (S n) w) =
          log_of (after_iterations P n w) ++
          [ Call (gpiod_line_get_value a) val;
            Call (gpiod_line_set_value b val) r_set;
            Call (usleep 10000) r_sleep ].
Proof.
  intros Hopen.
  destruct (run_main_iterations P w Hopen)
    as (chip & a & b & r_in & r_out & _ & Hiter).
  exists chip, a, b, r_in, r_out. split.
  - destruct (Hiter 0%nat) as (rs & _ & Hlen & Hlog & _).
    destruct rs; [|discriminate Hlen]. rewrite Hlog. apply app_nil_r.
  - intros n.
    destruct (Hiter n) as (rs & [[val r_set] r_sleep] & Hlen & Hlog & Hnext & _).
    destruct (values_of_iterations a b rs) as [Hr Hw].
    destruct (values_on_of_iterations a b rs) as [Hra Hwb].
    unfold values_read, values_written, values_read_on, values_written_on in *.
    rewrite Hlog, !collect_app, Hr, Hw, Hra, Hwb. simpl.
    repeat split.
    + now rewrite length_map.
    + exists val, r_set, r_sleep. rewrite Hnext, Hlog. reflexivity.
Qed.

(** ** The claims *)

(** C1. Whatever the provider presents at the input line, every iteration
    of the loop reads one level from the input line (the handle obtained
    for offset 10) and writes that same level to the output line (the
    handle obtained for offset 24): the iteration adds to the log the read
    of [val] on the input line, the write of [val] on the output line and
    the sleep; after it the value of the output line is [val], the level
    read last from the input line.  All reads are made on the input line
    and all writes on the output line, and over any number of iterations
    the levels written are the levels read. *)
Theorem output_mirrors_input (P : provider) (w : world P) :
  opens P w ->
  exists chip in_line out_line r_in r_out : Z,
    log_of (after_iterations P 0 w) = startup_calls chip in_line out_line r_in r_out /\
    forall n : nat,
      values_written (log_of (after_iterations P n w)) =
        values_read (log_of (after_iterations P n w)) /\
      values_read_on in_line (log_of (after_iterations P n w)) =
        values_read (log_of (after_iterations P n w)) /\
      values_written_on out_line (log_of (after_iterations P n w)) =
        values_written (log_of (after_iterations P n w)) /\
      exists val r_set r_sleep : Z,
        log_of (after_iterations P (S n) w) =
          log_of (after_iterations P n w) ++
          [ Call (gpiod_line_get_value in_line) val;
            Call (gpiod_line_set_value out_line val) r_set;
            Call (usleep 10000) r_sleep ] /\
        values_read_on in_line (log_of (after_iterations P (S n) w)) =
          values_read_on in_line (log_of (after_iterations P n w)) ++ [val] /\
        values_written_on out_line (log_of (after_iterations P (S n) w)) =
          values_written_on out_line (log_of (after_iterations P n w)) ++ [val] /\
        values_read (log_of (after_iterations P (S n) w)) =
          values_read (log_of (after_iterations P n w)) ++ [val] /\
        values_written (log_of (after_iterations P (S n) w)) =
          values_written (log_of (after_iterations P n w)) ++ [val] /\
        last_read_on in_line (log_of (after_iterations P (S n) w)) = Some val /\
        last_read (log_of (after_iterations P (S n) w)) = Some val /\
        line_value (log_of (after_iterations P (S n) w)) out_line = Some val.
Proof.
  intros Hopen.
  destruct (run_main_mirror P w Hopen)
    as (chip & a & b & r_in & r_out & Hzero & Hmirror).
  exists chip, a, b, r_in, r_out. split; [exact Hzero|].
  intros n.
  destruct (Hmirror n) as (Hra & Hwb & Hsame & _ & val & r_set & r_sleep & Hnext).
  split; [now rewrite <- Hra, <- Hwb|].
  split; [exact Hra|]. split; [exact Hwb|].
  exists val, r_set, r_sleep. split; [exact Hnext|].
  destruct (line_value_after_iteration
              (log_of (after_iterations P n w)) a b val r_set r_sleep)
    as [Hline Hlast].
  unfold iteration_calls in Hline, Hlast.
  rewrite Hnext.
  unfold last_read_on, values_read_on, values_written_on, values_read, values_written.
  rewrite !collect_app. simpl. rewrite !Z.eqb_refl.
  repeat split; try assumption.
  rewrite map_app. simpl. apply last_last.
Qed.

(** On a fresh board with levels 1, 0, 1 at the input: the three levels
    are read on the handle of line 10 and written on the handle of
    line 24. *)
Lemma output_mirrors_input_witness :
  opens Sim.gpio (Sim.fresh [1; 0; 1]) /\
  values_read_on (Sim.line_handle 10)
    (log_of (after_iterations Sim.gpio 3 (Sim.fresh [1; 0; 1]))) = [1; 0; 1] /\
  values_written_on (Sim.line_handle 24)
    (log_of (after_iterations Sim.gpio 3 (Sim.fresh [1; 0; 1]))) = [1; 0; 1] /\
  exists chip in_line out_line r_in r_out : Z,
    log_of (after_iterations Sim.gpio 0 (Sim.fresh [1; 0; 1])) =
      startup_calls chip in_line out_line r_in r_out /\
    forall n : nat,
      values_written (log_of (after_iterations Sim.gpio n (Sim.fresh [1; 0; 1]))) =
        values_read (log_of (after_iterations Sim.gpio n (Sim.fresh [1; 0; 1]))) /\
      values_read_on in_line (log_of (after_iterations Sim.gpio n (Sim.fresh [1; 0; 1]))) =
        values_read (log_of (after_iterations Sim.gpio n (Sim.fresh [1; 0; 1]))) /\
      values_written_on out_line (log_of (after_iterations Sim.gpio n (Sim.fresh [1; 0; 1]))) =
        values_written (log_of (after_iterations Sim.gpio n (Sim.fresh [1; 0; 1]))) /\
      exists val r_set r_sleep : Z,
        log_of (after_iterations Sim.gpio (S n) (Sim.fresh [1; 0; 1])) =
          log_of (after_iterations Sim.gpio n (Sim.fresh [1; 0; 1])) ++
          [ Call (gpiod_line_get_value in_line) val;
            Call (gpiod_line_set_value out_line val) r_set;
            Call (usleep 10000) r_sleep ] /\
        values_read_on in_line (log_of (after_iterations Sim.gpio (S n) (Sim.fresh [1; 0; 1]))) =
          values_read_on in_line (log_of (after_iterations Sim.gpio n (Sim.fresh [1; 0; 1])))
          ++ [val] /\
        values_written_on out_line
            (log_of (after_iterations Sim.gpio (S n) (Sim.fresh [1; 0; 1]))) =
          values_written_on out_line
            (log_of (after_iterations Sim.gpio n (Sim.fresh [1; 0; 1]))) ++ [val] /\
        values_read (log_of (after_iterations Sim.gpio (S n) (Sim.fresh [1; 0; 1]))) =
          values_read (log_of (after_iterations Sim.gpio n (Sim.fresh [1; 0; 1]))) ++ [val] /\
        values_written (log_of (after_iterations Sim.gpio (S n) (Sim.fresh [1; 0; 1]))) =
          values_written (log_of (after_iterations Sim.gpio n (Sim.fresh [1; 0; 1]))) ++ [val] /\
        last_read_on in_line (log_of (after_iterations Sim.gpio (S n) (Sim.fresh [1; 0; 1])))
          = Some val /\
        last_read (log_of (after_iterations Sim.gpio (S n) (Sim.fresh [1; 0; 1]))) = Some val /\
        line_value (log_of (after_iterations Sim.gpio (S n) (Sim.fresh [1; 0; 1]))) out_line
          = Some val.
Proof.
  assert (Hopen : opens Sim.gpio (Sim.fresh [1; 0; 1])) by (vm_compute; discriminate).
  split; [exact Hopen|]. split; [reflexivity|]. split; [reflexivity|].
  exact (output_mirrors_input Sim.gpio (Sim.fresh [1; 0; 1]) Hopen).
Defined.

(** C2. When the chip cannot be opened ([gpiod_chip_open] returns no
    handle), the program calls [perror] and returns 1: its whole log is the
    failed open followed by the error report, so no get-line, request, read
    or write is ever made. *)
Theorem open_failure_exits_1 (P : provider) (w : world P) :
  fst (answer P (gpiod_chip_open GPIO_CHIP) w) = NULL ->
  (forall fuel : nat,
     (3 <= fuel)%nat ->
     log_of (run P fuel main w) =
       [Call (gpiod_chip_open "/dev/gpiochip0") NULL;
        Call (perror "Open chip failed") tt] /\
     status_of (run P fuel main w) = Exited 1) /\
  (forall fuel : nat,
     Forall (fun c => is_line_op c = false) (log_of (run P fuel main w))).
Proof.
  intros Hnull. split.
  - intros fuel Hfuel.
    destruct (run_main_not_opened P w Hnull) as (w' & _ & Htwo).
    destruct fuel as [|[|[|fuel]]]; try lia.
    rewrite Htwo. split; reflexivity.
  - intros fuel. rewrite (run_main_no_chip P w fuel Hnull).
    destruct fuel as [|[|fuel]]; simpl.
    + constructor.
    + repeat constructor.
    + destruct fuel; repeat constructor.
Qed.

Lemma open_failure_exits_1_witness :
  fst (answer Sim.gpio (gpiod_chip_open GPIO_CHIP) Sim.absent) = NULL /\
  log_of (run Sim.gpio 40 main Sim.absent) =
    [Call (gpiod_chip_open "/dev/gpiochip0") NULL;
     Call (perror "Open chip failed") tt] /\
  status_of (run Sim.gpio 40 main Sim.absent) = Exited 1.
Proof.
  assert (Hnull : fst (answer Sim.gpio (gpiod_chip_open GPIO_CHIP) Sim.absent) = NULL)
    by reflexivity.
  split; [exact Hnull|].
  apply (open_failure_exits_1 Sim.gpio Sim.absent Hnull). lia.
Defined.

(** C3. With the chip open the loop never ends of its own accord: after
    any number [n] of iterations, whatever the input, exactly [n] writes
    have been made, all of them on the output line (the handle obtained for
    offset 24), and the process is running; at no point of the execution
    has [main] returned (so status 0 is never reached) and
    [gpiod_chip_close] is never called.  The tree of [main] has no leaf 0
    at all. *)
Theorem loop_never_terminates (P : provider) (w : world P) :
  opens P w ->
  (exists chip in_line out_line r_in r_out : Z,
     log_of (after_iterations P 0 w) = startup_calls chip in_line out_line r_in r_out /\
     forall n : nat,
       List.length (values_written_on out_line (log_of (after_iterations P n w))) = n /\
       values_written_on out_line (log_of (after_iterations P n w)) =
         values_written (log_of (after_iterations P n w)) /\
       exists val r_set r_sleep : Z,
         log_of (after_iterations P (S n) w) =
           log_of (after_iterations P n w) ++
           [ Call (gpiod_line_get_value in_line) val;
             Call (gpiod_line_set_value out_line val) r_set;
             Call (usleep 10000) r_sleep ]) /\
  (forall n : nat,
     List.length (filter is_write (log_of (after_iterations P n w))) = n /\
     status_of (after_iterations P n w) = Running) /\
  (forall fuel : nat,
     status_of (run P fuel main w) = Running /\
     status_of (run P fuel main w) <> Exited 0 /\
     Forall (fun c => is_close c = false) (log_of (run P fuel main w))) /\
  ~ Leaf 0 main.
Proof.
  intros Hopen.
  assert (Hleaf : ~ Leaf 0 main).
  { intros H0. apply main_returns_only_1 in H0. discriminate H0. }
  split; [|split; [|split; [|exact Hleaf]]].
  - destruct (run_main_mirror P w Hopen)
      as (chip & a & b & r_in & r_out & Hzero & Hmirror).
    exists chip, a, b, r_in, r_out. split; [exact Hzero|]. intros n.
    destruct (Hmirror n) as (_ & Hwb & Hsame & Hlen & Hnext).
    split; [now rewrite Hsame|]. split; [exact Hwb|exact Hnext].
  - intros n.
    destruct (run_main_iterations P w Hopen)
      as (chip & a & b & r_in & r_out & _ & Hiter).
    destruct (Hiter n) as (rs & _ & Hlen & Hlog & _ & Hst).
    split; [|exact Hst].
    rewrite Hlog, filter_app, length_app, writes_of_iterations, Hlen.
    reflexivity.
  - intros fuel.
    destruct (run_main_any_fuel P w Hopen)
      as (chip & a & b & r_in & r_out & _ & Hany).
    destruct (Hany fuel) as (Hst & tail & Htail & Hlog).
    split; [exact Hst|]. split; [rewrite Hst; discriminate|].
    rewrite Hlog. apply Forall_app. split.
    + apply Forall_start. unfold startup_calls. repeat constructor.
    + now apply loop_calls_open_nothing.
Qed.

(** A thousand iterations on a fresh board: a thousand writes on the
    handle of line 24, and the process is running. *)
Lemma loop_never_terminates_witness :
  opens Sim.gpio (Sim.fresh [1; 1; 0]) /\
  List.length (values_written_on (Sim.line_handle 24)
                 (log_of (after_iterations Sim.gpio 1000 (Sim.fresh [1; 1; 0]))))
    = 1000%nat /\
  List.length (filter is_write (log_of (after_iterations Sim.gpio 1000 (Sim.fresh [1; 1; 0]))))
    = 1000%nat /\
  status_of (after_iterations Sim.gpio 1000 (Sim.fresh [1; 1; 0])) = Running.
Proof.
  assert (Hopen : opens Sim.gpio (Sim.fresh [1; 1; 0])) by (vm_compute; discriminate).
  split; [exact Hopen|]. split; [vm_compute; reflexivity|].
  destruct (loop_never_terminates Sim.gpio (Sim.fresh [1; 1; 0]) Hopen)
    as (_ & Hwrites & _).
  exact (Hwrites 1000%nat).
Defined.

(** C4. The last call of the start-up sequence requests the output line
    for writing under the label "gpio_out" with initial level 0; when the
    loop is about to start (five calls made, no iteration yet) nothing has
    been written and the value of the output line is 0. *)
Theorem output_starts_low (P : provider) (w : world P) :
  opens P w ->
  exists chip in_line out_line r_in r_out : Z,
    log_of (after_iterations P 0 w) = startup_calls chip in_line out_line r_in r_out /\
    last (log_of (after_iterations P 0 w)) (Call (usleep 0) 0) =
      Call (gpiod_line_request_output out_line "gpio_out" 0) r_out /\
    values_written (log_of (after_iterations P 0 w)) = [] /\
    line_value (log_of (after_iterations P 0 w)) out_line = Some 0.
Proof.
  intros Hopen.
  destruct (run_main_iterations P w Hopen)
    as (chip & a & b & r_in & r_out & _ & Hiter).
  destruct (Hiter 0%nat) as (rs & _ & Hlen & Hlog & _).
  destruct rs; [|discriminate Hlen]. simpl flat_map in Hlog.
  rewrite app_nil_r in Hlog.
  exists chip, a, b, r_in, r_out. rewrite Hlog.
  repeat split.
  unfold line_value. simpl. now rewrite Z.eqb_refl.
Qed.

(** On a fresh board the request is granted and the board drives 0 on
    line 24 when the loop starts. *)
Lemma output_starts_low_witness :
  opens Sim.gpio (Sim.fresh [1; 1]) /\
  Sim.level (world_of (after_iterations Sim.gpio 0 (Sim.fresh [1; 1]))) 24 = Some 0 /\
  exists chip in_line out_line r_in r_out : Z,
    log_of (after_iterations Sim.gpio 0 (Sim.fresh [1; 1])) =
      startup_calls chip in_line out_line r_in r_out /\
    last (log_of (after_iterations Sim.gpio 0 (Sim.fresh [1; 1]))) (Call (usleep 0) 0) =
      Call (gpiod_line_request_output out_line "gpio_out" 0) r_out /\
    values_written (log_of (after_iterations Sim.gpio 0 (Sim.fresh [1; 1]))) = [] /\
    line_value (log_of (after_iterations Sim.gpio 0 (Sim.fresh [1; 1]))) out_line = Some 0.
Proof.
  assert (Hopen : opens Sim.gpio (Sim.fresh [1; 1])) by (vm_compute; discriminate).
  split; [exact Hopen|]. split; [reflexivity|].
  exact (output_starts_low Sim.gpio (Sim.fresh [1; 1]) Hopen).
Defined.



(** C6. Every iteration of the loop is exactly three calls in this order:
    [gpiod_line_get_value] on the input line, [gpiod_line_set_value] on the
    output line with the level just read, [usleep] for 10000 microseconds,
    that is 10 ms.  The log after [n + 1] iterations is the log after [n]
    iterations followed by those three calls and nothing else. *)
Theorem iteration_is_read_write_sleep (P : provider) (w : world P) :
  opens P w ->
  exists chip in_line out_line r_in r_out : Z,
    log_of (after_iterations P 0 w) = startup_calls chip in_line out_line r_in r_out /\
    forall n : nat,
      exists val r_set r_sleep : Z,
        log_of (after_iterations P (S n) w) =
          log_of (after_iterations P n w) ++
          [ Call (gpiod_line_get_value in_line) val;
            Call (gpiod_line_set_value out_line val) r_set;
            Call (usleep (10 * 1000)) r_sleep ].
Proof.
  intros Hopen.
  destruct (run_main_iterations P w Hopen)
    as (chip & a & b & r_in & r_out & _ & Hiter).
  exists chip, a, b, r_in, r_out. split.
  - destruct (Hiter 0%nat) as (rs & _ & Hlen & Hlog & _).
    destruct rs; [|discriminate Hlen]. rewrite Hlog. apply app_nil_r.
  - intros n.
    destruct (Hiter n) as (rs & [[val r_set] r_sleep] & _ & _ & Hnext & _).
    exists val, r_set, r_sleep. exact Hnext.
Qed.

Lemma iteration_is_read_write_sleep_witness :
  opens Sim.gpio (Sim.fresh [0; 1]) /\
  exists chip in_line out_line r_in r_out : Z,
    log_of (after_iterations Sim.gpio 0 (Sim.fresh [0; 1])) =
      startup_calls chip in_line out_line r_in r_out /\
    forall n : nat,
      exists val r_set r_sleep : Z,
        log_of (after_iterations Sim.gpio (S n) (Sim.fresh [0; 1])) =
          log_of (after_iterations Sim.gpio n (Sim.fresh [0; 1])) ++
          [ Call (gpiod_line_get_value in_line) val;
            Call (gpiod_line_set_value out_line val) r_set;
            Call (usleep (10 * 1000)) r_sleep ].
Proof.
  assert (Hopen : opens Sim.gpio (Sim.fresh [0; 1])) by (vm_compute; discriminate).
  split; [exact Hopen|].
  exact (iteration_is_read_write_sleep Sim.gpio (Sim.fresh [0; 1]) Hopen).
Defined.

(** C7. The device path and the two offsets are the macros and nothing
    else: for every provider and every state of it, the only path the
    program opens is "/dev/gpiochip0" and the offsets it asks for are 10 and
    then 24 (none when the chip cannot be opened).  [main] takes no argument
    and makes no call that could supply other values. *)
Theorem path_and_offsets_fixed (P : provider) (w : world P) (fuel : nat) :
  (exists (ps : list string) (os : list Z),
     paths_opened (log_of (run P fuel main w)) ++ ps = ["/dev/gpiochip0"] /\
     offsets_acquired (log_of (run P fuel main w)) ++ os = [10; 24]) /\
  paths_opened (log_of (run P (startup_steps + fuel) main w)) = ["/dev/gpiochip0"] /\
  offsets_acquired (log_of (run P (startup_steps + fuel) main w)) =
    (if Z.eqb (fst (answer P (gpiod_chip_open "/dev/gpiochip0") w)) NULL
     then [] else [10; 24]).
Proof.
  destruct (Z.eqb (fst (answer P (gpiod_chip_open "/dev/gpiochip0") w)) NULL)
    eqn:Hchip.
  - apply Z.eqb_eq in Hchip.
    rewrite !(run_main_no_chip P w _ Hchip). split.
    + destruct fuel as [|[|fuel]]; simpl; rewrite ?firstn_nil;
        eexists; eexists; split; reflexivity.
    + split; reflexivity.
  - apply Z.eqb_neq in Hchip.
    destruct (run_main_any_fuel P w Hchip)
      as (chip & a & b & r_in & r_out & _ & Hany).
    assert (Hlog : forall k : nat,
      paths_opened (log_of (run P k main w)) =
        paths_opened (firstn k (startup_calls chip a b r_in r_out)) /\
      offsets_acquired (log_of (run P k main w)) =
        offsets_acquired (firstn k (startup_calls chip a b r_in r_out))).
    { intros k. destruct (Hany k) as (_ & tail & Htail & Hk).
      apply loop_calls_open_nothing in Htail. destruct Htail as (Hp & Ho & _).
      rewrite Hk. unfold paths_opened, offsets_acquired in *.
      rewrite !collect_app, Hp, Ho, !app_nil_r. split; reflexivity. }
    split.
    + destruct (Hlog fuel) as [Hp Ho]. rewrite Hp, Ho.
      destruct fuel as [|[|[|[|[|fuel]]]]]; simpl; rewrite ?firstn_nil;
        eexists; eexists; split; reflexivity.
    + destruct (Hlog (startup_steps + fuel)%nat) as [Hp Ho]. rewrite Hp, Ho.
      simpl. rewrite firstn_nil. split; reflexivity.
Qed.

(** C8. At every point of every execution the process has at most one
    chip open, has requested at most one line as input and at most one as
    output, and each requested line was obtained from the chip it has
    open. *)
Theorem one_chip_one_line_each (P : provider) (w : world P) (fuel : nat) :
  well_held (holdings_of (log_of (run P fuel main w))) = true /\
  (List.length (chips (holdings_of (log_of (run P fuel main w)))) <= 1)%nat /\
  (List.length (inputs (holdings_of (log_of (run P fuel main w)))) <= 1)%nat /\
  (List.length (outputs (holdings_of (log_of (run P fuel main w)))) <= 1)%nat /\
  forall l : ptr,
    In l (inputs (holdings_of (log_of (run P fuel main w))) ++
          outputs (holdings_of (log_of (run P fuel main w)))) ->
    exists chip : ptr,
      In chip (chips (holdings_of (log_of (run P fuel main w)))) /\
      In (l, chip) (acquired (holdings_of (log_of (run P fuel main w)))).
Proof.
  assert (Hheld : well_held (holdings_of (log_of (run P fuel main w))) = true).
  { destruct (Z.eqb (fst (answer P (gpiod_chip_open GPIO_CHIP) w)) NULL) eqn:Hchip.
    - apply Z.eqb_eq in Hchip. rewrite (run_main_no_chip P w fuel Hchip).
      destruct fuel as [|[|[|fuel]]]; reflexivity.
    - apply Z.eqb_neq in Hchip.
      destruct (run_main_any_fuel P w Hchip)
        as (chip & a & b & r_in & r_out & Hneq & Hany).
      destruct (Hany fuel) as (_ & tail & Htail & Hlog).
      rewrite Hlog, (holdings_of_loop_tail _ _ Htail).
      rewrite (holdings_of_startup fuel chip a b r_in r_out Hneq).
      destruct fuel as [|[|[|[|[|fuel]]]]]; unfold well_held, from_open_chip; simpl;
        rewrite ?Z.eqb_refl; simpl; rewrite ?orb_true_r; reflexivity. }
  split; [exact Hheld|]. now apply well_held_sound.
Qed.

(** C9. The input offset and the output offset differ (10 and 24); the
    only request for input is made on the handle obtained for offset 10 and
    the only request for output on the handle obtained for offset 24.  With
    a provider that keeps the handles of different lines apart, no line
    handle is ever requested both as input and as output. *)
Theorem input_and_output_lines_differ (P : provider) (w : world P) :
  opens P w ->
  INPUT_LINE <> OUTPUT_LINE /\
  exists chip in_line out_line r_in r_out : Z,
    log_of (after_iterations P 0 w) =
      [ Call (gpiod_chip_open "/dev/gpiochip0") chip;
        Call (gpiod_chip_get_line chip 10) in_line;
        Call (gpiod_chip_get_line chip 24) out_line;
        Call (gpiod_line_request_input in_line "gpio_in") r_in;
        Call (gpiod_line_request_output out_line "gpio_out" 0) r_out ] /\
    (forall fuel : nat,
       incl (inputs (holdings_of (log_of (run P fuel main w)))) [in_line] /\
       incl (outputs (holdings_of (log_of (run P fuel main w)))) [out_line]) /\
    (distinct_handles P ->
     forall (fuel : nat) (l : ptr),
       In l (inputs (holdings_of (log_of (run P fuel main w)))) ->
       In l (outputs (holdings_of (log_of (run P fuel main w)))) ->
       l = NULL).
Proof.
  intros Hopen. split; [discriminate|].
  destruct (run_main_opened P w Hopen)
    as (chip & a & b & r_in & r_out & w0 & Hchip & (w1 & w2 & Ha & Hb) & Hsmall & Hfive).
  assert (Hheld : forall fuel : nat,
    incl (inputs (holdings_of (log_of (run P fuel main w)))) [a] /\
    incl (outputs (holdings_of (log_of (run P fuel main w)))) [b]).
  { intros fuel.
    destruct (Nat.le_gt_cases fuel startup_steps) as [Hle | Hgt].
    - rewrite (Hsmall fuel Hle), (holdings_of_startup fuel chip a b r_in r_out Hchip).
      destruct fuel as [|[|[|[|[|fuel]]]]]; simpl; split;
        auto using incl_nil_l, incl_refl.
    - assert (Hlog : log_of (run P fuel main w) =
                startup_calls chip a b r_in r_out ++
                log_of (run P (fuel - startup_steps) (steady chip a b) w0)).
      { replace fuel with (startup_steps + (fuel - startup_steps))%nat at 1 by lia.
        now rewrite Hfive. }
      rewrite Hlog, (holdings_of_loop_tail _ _ (run_steady_calls P chip a b _ w0)).
      rewrite <- (firstn_all (startup_calls chip a b r_in r_out)).
      rewrite (holdings_of_startup _ chip a b r_in r_out Hchip).
      simpl. split; apply incl_refl. }
  exists chip, a, b, r_in, r_out. split; [|split].
  - unfold after_iterations. simpl Nat.add. now rewrite (Hsmall 5%nat (le_n _)).
  - exact Hheld.
  - intros Hdistinct fuel l Hin Hout.
    destruct (Hheld fuel) as [Hi Ho].
    apply Hi in Hin. apply Ho in Hout. simpl in Hin, Hout.
    destruct Hin as [Hin|[]]. destruct Hout as [Hout|[]]. subst l.
    destruct (Z.eq_dec a NULL) as [Hnull|Hnn]; [exact Hnull|].
    exfalso. rewrite Ha in Hnn.
    apply (Hdistinct chip INPUT_LINE OUTPUT_LINE w1 w2); [discriminate|exact Hnn|].
    now rewrite <- Ha, <- Hb.
Qed.

Lemma input_and_output_lines_differ_witness :
  opens Sim.gpio (Sim.fresh [0; 1]) /\
  log_of (after_iterations Sim.gpio 0 (Sim.fresh [0; 1])) =
    [ Call (gpiod_chip_open "/dev/gpiochip0") Sim.chip_handle;
      Call (gpiod_chip_get_line Sim.chip_handle 10) (Sim.line_handle 10);
      Call (gpiod_chip_get_line Sim.chip_handle 24) (Sim.line_handle 24);
      Call (gpiod_line_request_input (Sim.line_handle 10) "gpio_in") 0;
      Call (gpiod_line_request_output (Sim.line_handle 24) "gpio_out" 0) 0 ] /\
  INPUT_LINE <> OUTPUT_LINE /\
  forall (fuel : nat) (l : ptr),
    In l (inputs (holdings_of (log_of (run Sim.gpio fuel main (Sim.fresh [0; 1]))))) ->
    In l (outputs (holdings_of (log_of (run Sim.gpio fuel main (Sim.fresh [0; 1]))))) ->
    l = NULL.
Proof.
  assert (Hopen : opens Sim.gpio (Sim.fresh [0; 1])) by (vm_compute; discriminate).
  split; [exact Hopen|]. split; [reflexivity|].
  destruct (input_and_output_lines_differ Sim.gpio (Sim.fresh [0; 1]) Hopen)
    as (Hoffsets & chip & a & b & r_in & r_out & _ & _ & Hnever).
  split; [exact Hoffsets|]. exact (Hnever sim_distinct_handles).
Defined.

(** C10. The level read from the input line is handed to the write on
    the output line as it is, whatever it is: every iteration reads the
    input line, and if the read of the [i]-th iteration returned [val] --
    any integer, -1 included -- the [i]-th write on the output line is
    given [val].  Nothing stands between the read and the write: the call
    after the read of [val] is the write of [val]. *)
Theorem read_value_passed_unfiltered (P : provider) (w : world P) :
  opens P w ->
  exists chip in_line out_line r_in r_out : Z,
    log_of (after_iterations P 0 w) = startup_calls chip in_line out_line r_in r_out /\
    forall n : nat,
      List.length (values_read_on in_line (log_of (after_iterations P n w))) = n /\
      (forall (i : nat) (val : Z),
         nth_error (values_read_on in_line (log_of (after_iterations P n w))) i = Some val ->
         nth_error (values_written_on out_line (log_of (after_iterations P n w))) i
           = Some val) /\
      (forall (i : nat) (val : Z),
         nth_error (values_read (log_of (after_iterations P n w))) i = Some val ->
         nth_error (values_written (log_of (after_iterations P n w))) i = Some val) /\
      exists val r_set r_sleep : Z,
        log_of (after_iterations P (S n) w) =
          log_of (after_iterations P n w) ++
          [ Call (gpiod_line_get_value in_line) val;
            Call (gpiod_line_set_value out_line val) r_set;
            Call (usleep 10000) r_sleep ].
Proof.
  intros Hopen.
  destruct (run_main_mirror P w Hopen)
    as (chip & a & b & r_in & r_out & Hzero & Hmirror).
  exists chip, a, b, r_in, r_out. split; [exact Hzero|]. intros n.
  destruct (Hmirror n) as (Hra & Hwb & Hsame & Hlen & Hnext).
  split; [exact Hlen|]. split; [|split; [|exact Hnext]].
  - intros i val Hread. now rewrite Hsame.
  - intros i val Hread. now rewrite <- Hwb, Hsame, Hra.
Qed.

(** A read of the input line that fails with -1 in the second iteration:
    -1 is written to the output line. *)
Lemma read_value_passed_unfiltered_witness :
  opens Sim.gpio (Sim.fresh [1]) /\
  nth_error (values_read_on (Sim.line_handle 10)
               (log_of (after_iterations Sim.gpio 2 (Sim.fresh [1])))) 1 = Some (-1) /\
  nth_error (values_written_on (Sim.line_handle 24)
               (log_of (after_iterations Sim.gpio 2 (Sim.fresh [1])))) 1 = Some (-1) /\
  exists chip in_line out_line r_in r_out : Z,
    log_of (after_iterations Sim.gpio 0 (Sim.fresh [1])) =
      startup_calls chip in_line out_line r_in r_out /\
    forall n : nat,
      List.length (values_read_on in_line (log_of (after_iterations Sim.gpio n (Sim.fresh [1]))))
        = n /\
      (forall (i : nat) (val : Z),
         nth_error (values_read_on in_line
                      (log_of (after_iterations Sim.gpio n (Sim.fresh [1])))) i = Some val ->
         nth_error (values_written_on out_line
                      (log_of (after_iterations Sim.gpio n (Sim.fresh [1])))) i = Some val) /\
      (forall (i : nat) (val : Z),
         nth_error (values_read (log_of (after_iterations Sim.gpio n (Sim.fresh [1])))) i
           = Some val ->
         nth_error (values_written (log_of (after_iterations Sim.gpio n (Sim.fresh [1])))) i
           = Some val) /\
      exists val r_set r_sleep : Z,
        log_of (after_iterations Sim.gpio (S n) (Sim.fresh [1])) =
          log_of (after_iterations Sim.gpio n (Sim.fresh [1])) ++
          [ Call (gpiod_line_get_value in_line) val;
            Call (gpiod_line_set_value out_line val) r_set;
            Call (usleep 10000) r_sleep ].
Proof.
  assert (Hopen : opens Sim.gpio (Sim.fresh [1])) by (vm_compute; discriminate).
  split; [exact Hopen|]. split; [reflexivity|]. split; [reflexivity|].
  exact (read_value_passed_unfiltered Sim.gpio (Sim.fresh [1]) Hopen).
Defined.

(** ** Further properties of [main] *)

(** X1. The process exits only through the failed open: if at some point
    [main] has returned, under any provider, then the open returned the
    null pointer, the status is 1 and the calls made are the open and the
    error report, nothing else. *)
Theorem exit_only_when_open_fails (P : provider) (w : world P) (fuel : nat) (code : Z) :
  status_of (run P fuel main w) = Exited code ->
  code = 1 /\
  fst (answer P (gpiod_chip_open GPIO_CHIP) w) = NULL /\
  log_of (run P fuel main w) =
    [Call (gpiod_chip_open "/dev/gpiochip0") NULL;
     Call (perror "Open chip failed") tt].
Proof.
  intros Hexit.
  destruct (Z.eq_dec (fst (answer P (gpiod_chip_open GPIO_CHIP) w)) NULL)
    as [Hnull | Hopen].
  - destruct (run_main_not_opened P w Hnull) as (w' & Hone & Htwo).
    destruct fuel as [|[|[|fuel]]].
    + discriminate Hexit.
    + rewrite Hone in Hexit. discriminate Hexit.
    + rewrite Htwo in Hexit. discriminate Hexit.
    + rewrite Htwo in *. unfold status_of in Hexit. simpl in Hexit.
      inversion Hexit. repeat split. exact Hnull.
  - destruct (run_main_any_fuel P w Hopen)
      as (chip & a & b & r_in & r_out & _ & Hany).
    destruct (Hany fuel) as [Hst _]. rewrite Hst in Hexit. discriminate Hexit.
Qed.

Lemma exit_only_when_open_fails_witness :
  status_of (run Sim.gpio 7 main Sim.absent) = Exited 1 /\
  fst (answer Sim.gpio (gpiod_chip_open GPIO_CHIP) Sim.absent) = NULL /\
  log_of (run Sim.gpio 7 main Sim.absent) =
    [Call (gpiod_chip_open "/dev/gpiochip0") NULL;
     Call (perror "Open chip failed") tt].
Proof.
  assert (Hexit : status_of (run Sim.gpio 7 main Sim.absent) = Exited 1)
    by reflexivity.
  split; [exact Hexit|].
  apply (exit_only_when_open_fails Sim.gpio Sim.absent 7 1 Hexit).
Defined.

(** X2. An error is reported exactly when the open fails, and then once:
    as soon as two steps have been taken the log holds a [perror] call if
    and only if the open returned the null pointer, and no log ever holds
    two.  Failed get-line calls, requests, reads and writes are passed over
    in silence. *)
Theorem report_iff_open_fails (P : provider) (w : world P) (fuel : nat) :
  existsb is_report (log_of (run P (2 + fuel) main w)) =
    Z.eqb (fst (answer P (gpiod_chip_open GPIO_CHIP) w)) NULL /\
  (List.length (filter is_report (log_of (run P fuel main w))) <= 1)%nat.
Proof.
  destruct (Z.eqb (fst (answer P (gpiod_chip_open GPIO_CHIP) w)) NULL) eqn:Hchip.
  - apply Z.eqb_eq in Hchip.
    rewrite !(run_main_no_chip P w _ Hchip). split; [reflexivity|].
    destruct fuel as [|[|[|fuel]]]; simpl; lia.
  - apply Z.eqb_neq in Hchip.
    destruct (run_main_any_fuel P w Hchip)
      as (chip & a & b & r_in & r_out & _ & Hany).
    assert (Hnone : forall k : nat,
              filter is_report (log_of (run P k main w)) = []).
    { intros k. destruct (Hany k) as (_ & tail & Htail & Hlog).
      rewrite Hlog, filter_app.
      assert (Hstart : filter is_report
                (firstn k (startup_calls chip a b r_in r_out)) = []).
      { destruct k as [|[|[|[|[|k]]]]]; simpl; rewrite ?firstn_nil; reflexivity. }
      rewrite Hstart. simpl.
      clear Hlog. induction Htail as [|c tail Hc _ IH]; [reflexivity|].
      destruct c as [X e x]. destruct e; try discriminate Hc; simpl; exact IH. }
    split.
    + destruct (existsb is_report (log_of (run P (2 + fuel) main w))) eqn:Hex;
        [|reflexivity].
      apply existsb_exists in Hex. destruct Hex as (c & Hin & Hc).
      assert (Hf : In c (filter is_report (log_of (run P (2 + fuel) main w))))
        by (apply filter_In; now split).
      rewrite Hnone in Hf. destruct Hf.
    + rewrite Hnone. simpl. lia.
Qed.



(** The levels put on [b] by whole iterations are the levels they read. *)
Lemma drives_of_iterations (a b : ptr) (rs : list (Z * Z * Z)) :
  collect (drives b) (flat_map (iteration_calls a b) rs) = map (fun r => fst (fst r)) rs.
Proof.
  induction rs as [|[[val r_set] r_sleep] rs IH]; simpl; [reflexivity|].
  now rewrite Z.eqb_refl, IH.
Qed.

Lemma last_some_in (vs : list Z) (v : Z) :
  last (map Some vs) None = Some v -> In v vs.
Proof.
  induction vs as [|v' vs IH]; [discriminate|].
  destruct vs as [|v'' vs].
  - simpl. intros Hv. inversion Hv. now left.
  - intros Hv. right. apply IH. exact Hv.
Qed.

(** X4. The output line only ever carries the initial 0 or a level that
    was read from the input: at every point of the execution, the value of
    the output line is 0 or one of the levels read so far.  In particular,
    while every level read is 0 or 1 so is the output. *)
Theorem output_is_zero_or_read (P : provider) (w : world P) :
  opens P w ->
  exists chip in_line out_line r_in r_out : Z,
    log_of (after_iterations P 0 w) = startup_calls chip in_line out_line r_in r_out /\
    forall (fuel : nat) (v : Z),
      line_value (log_of (run P fuel main w)) out_line = Some v ->
      (v = 0 \/ In v (values_read (log_of (run P fuel main w)))) /\
      (Forall (fun x => x = 0 \/ x = 1) (values_read (log_of (run P fuel main w))) ->
       v = 0 \/ v = 1).
Proof.
  intros Hopen.
  destruct (run_main_shape P w Hopen)
    as (chip & a & b & r_in & r_out & _ & Hzero & _ & Hshape).
  exists chip, a, b, r_in, r_out. split; [exact Hzero|].
  intros fuel v Hv.
  assert (Hfrom : v = 0 \/ In v (values_read (log_of (run P fuel main w)))).
  { unfold line_value in Hv. apply last_some_in in Hv.
    destruct (Hshape fuel) as [[Hle Hlog] | [_ (rs & part & Hpart & Hlog)]].
    - rewrite Hlog in Hv.
      destruct fuel as [|[|[|[|[|fuel]]]]]; simpl in Hv; rewrite ?firstn_nil in Hv;
        simpl in Hv; try (now destruct Hv).
      rewrite Z.eqb_refl in Hv. destruct Hv as [Hv|[]]. now left.
    - destruct (values_of_iterations a b rs) as [Hr _].
      unfold values_read in *.
      rewrite Hlog in *. rewrite !collect_app in *.
      rewrite drives_of_iterations in Hv. rewrite Hr.
      simpl in Hv. rewrite Z.eqb_refl in Hv. simpl in Hv.
      destruct Hv as [Hv | Hv]; [now left|]. right.
      apply in_app_iff in Hv. simpl. apply in_app_iff.
      destruct Hv as [Hv | Hv]; [now left|]. right.
      destruct Hpart as [Hp | [(val & Hp) | (val & r_set & Hp)]]; subst part;
        simpl in Hv.
      + destruct Hv.
      + destruct Hv.
      + rewrite Z.eqb_refl in Hv. exact Hv. }
  split; [exact Hfrom|].
  intros Hbin. destruct Hfrom as [H0 | Hin]; [now left|].
  rewrite Forall_forall in Hbin. now apply Hbin.
Qed.

Lemma output_is_zero_or_read_witness :
  opens Sim.gpio (Sim.fresh [1; 0; 1]) /\
  exists chip in_line out_line r_in r_out : Z,
    log_of (after_iterations Sim.gpio 0 (Sim.fresh [1; 0; 1])) =
      startup_calls chip in_line out_line r_in r_out /\
    forall (fuel : nat) (v : Z),
      line_value (log_of (run Sim.gpio fuel main (Sim.fresh [1; 0; 1]))) out_line = Some v ->
      (v = 0 \/ In v (values_read (log_of (run Sim.gpio fuel main (Sim.fresh [1; 0; 1]))))) /\
      (Forall (fun x => x = 0 \/ x = 1)
         (values_read (log_of (run Sim.gpio fuel main (Sim.fresh [1; 0; 1])))) ->
       v = 0 \/ v = 1).
Proof.
  assert (Hopen : opens Sim.gpio (Sim.fresh [1; 0; 1])) by (vm_compute; discriminate).
  split; [exact Hopen|].
  exact (output_is_zero_or_read Sim.gpio (Sim.fresh [1; 0; 1]) Hopen).
Defined.

(** The calls of whole iterations, answers left out, are fixed by the two
    handles and the levels read. *)
Lemma requests_of_iterations (a b : ptr) (rs : list (Z * Z * Z)) :
  map request_of (flat_map (iteration_calls a b) rs) =
  flat_map (fun val => [ Request (gpiod_line_get_value a);
                         Request (gpiod_line_set_value b val);
                         Request (usleep 10000) ])
           (map (fun r => fst (fst r)) rs) /\
  handles_obtained (flat_map (iteration_calls a b) rs) = [] /\
  sleeps (flat_map (iteration_calls a b) rs) = repeat 10000 (List.length rs).
Proof.
  induction rs as [|[[val r_set] r_sleep] rs (IHq & IHh & IHs)]; simpl;
    [repeat split|].
  unfold handles_obtained, sleeps in *. simpl. now rewrite IHq, IHh, IHs.
Qed.

(** X5. What the two requests, the writes and the sleeps return is never
    used: two executions in which the provider hands out the same handles
    and presents the same levels at the input make the same calls with the
    same arguments, however the answers to the other calls differ. *)
Theorem calls_ignore_other_results
    (P1 P2 : provider) (w1 : world P1) (w2 : world P2) (n : nat) :
  opens P1 w1 ->
  opens P2 w2 ->
  handles_obtained (log_of (after_iterations P1 n w1)) =
    handles_obtained (log_of (after_iterations P2 n w2)) ->
  values_read (log_of (after_iterations P1 n w1)) =
    values_read (log_of (after_iterations P2 n w2)) ->
  map request_of (log_of (after_iterations P1 n w1)) =
    map request_of (log_of (after_iterations P2 n w2)).
Proof.
  intros Hopen1 Hopen2 Hhandles Hreads.
  destruct (run_main_shape P1 w1 Hopen1)
    as (chip1 & a1 & b1 & r_in1 & r_out1 & _ & _ & Hiter1 & _).
  destruct (run_main_shape P2 w2 Hopen2)
    as (chip2 & a2 & b2 & r_in2 & r_out2 & _ & _ & Hiter2 & _).
  destruct (Hiter1 n) as (rs1 & _ & Hlog1).
  destruct (Hiter2 n) as (rs2 & _ & Hlog2).
  destruct (requests_of_iterations a1 b1 rs1) as (Hq1 & Hh1 & _).
  destruct (requests_of_iterations a2 b2 rs2) as (Hq2 & Hh2 & _).
  destruct (values_of_iterations a1 b1 rs1) as [Hr1 _].
  destruct (values_of_iterations a2 b2 rs2) as [Hr2 _].
  rewrite Hlog1, Hlog2 in *.
  unfold handles_obtained, values_read in *.
  rewrite !collect_app, ?Hh1, ?Hh2, ?Hr1, ?Hr2 in *.
  simpl in Hhandles, Hreads.
  injection Hhandles as Hchip Ha Hb. subst chip2 a2 b2.
  rewrite !map_app, Hq1, Hq2, Hreads. reflexivity.
Qed.

(** A fresh board against a board whose line 24 is held by someone else:
    the request for output and the writes are refused on the second, and
    the calls made are the same. *)
Lemma calls_ignore_other_results_witness :
  opens Sim.gpio (Sim.fresh [1; 0]) /\
  opens Sim.gpio Sim.taken /\
  log_of (after_iterations Sim.gpio 2 (Sim.fresh [1; 0])) <>
    log_of (after_iterations Sim.gpio 2 Sim.taken) /\
  map request_of (log_of (after_iterations Sim.gpio 2 (Sim.fresh [1; 0]))) =
    map request_of (log_of (after_iterations Sim.gpio 2 Sim.taken)).
Proof.
  assert (Hopen1 : opens Sim.gpio (Sim.fresh [1; 0])) by (vm_compute; discriminate).
  assert (Hopen2 : opens Sim.gpio Sim.taken) by (vm_compute; discriminate).
  split; [exact Hopen1|]. split; [exact Hopen2|]. split.
  - intros Heq. apply (f_equal (fun log => map callee_of (filter (refused 8216) log))) in Heq.
    vm_compute in Heq. discriminate Heq.
  - apply (calls_ignore_other_results Sim.gpio Sim.gpio (Sim.fresh [1; 0]) Sim.taken 2
             Hopen1 Hopen2); reflexivity.
Defined.

Lemma sum_of_repeat (z : Z) (n : nat) :
  fold_right Z.add 0 (repeat z n) = z * Z.of_nat n.
Proof.
  induction n as [|n IH]; [simpl; lia|].
  cbn [repeat fold_right]. rewrite IH. lia.
Qed.

(** X6. The program sleeps once per iteration, after the write, always for
    10000 microseconds: after [n] iterations it has asked for [n] sleeps of
    10 ms, 10000 * n microseconds in all, and at every point of the
    execution the sleeps made are all of 10000 microseconds and are as many
    as the writes or one fewer.  Nothing else in the program waits. *)
Theorem sleeps_10_ms_per_iteration (P : provider) (w : world P) :
  opens P w ->
  (forall n : nat,
     sleeps (log_of (after_iterations P n w)) = repeat 10000 n /\
     fold_right Z.add 0 (sleeps (log_of (after_iterations P n w))) =
       10000 * Z.of_nat n) /\
  (forall fuel : nat,
     exists k : nat,
       sleeps (log_of (run P fuel main w)) = repeat 10000 k /\
       (k <= List.length (values_written (log_of (run P fuel main w))) <= k + 1)%nat).
Proof.
  intros Hopen.
  destruct (run_main_shape P w Hopen)
    as (chip & a & b & r_in & r_out & _ & _ & Hiter & Hshape).
  split.
  - intros n. destruct (Hiter n) as (rs & Hlen & Hlog).
    destruct (requests_of_iterations a b rs) as (_ & _ & Hs).
    assert (Hsl : sleeps (log_of (after_iterations P n w)) = repeat 10000 n).
    { rewrite Hlog. unfold sleeps in *. rewrite collect_app, Hs, Hlen. reflexivity. }
    split; [exact Hsl|]. rewrite Hsl. apply sum_of_repeat.
  - intros fuel.
    destruct (Hshape fuel) as [[Hle Hlog] | [_ (rs & part & Hpart & Hlog)]].
    + exists 0%nat. rewrite Hlog.
      destruct fuel as [|[|[|[|[|fuel]]]]]; simpl; rewrite ?firstn_nil;
        (split; [reflexivity|simpl; lia]).
    + exists (List.length rs).
      destruct (requests_of_iterations a b rs) as (_ & _ & Hs).
      destruct (values_of_iterations a b rs) as [_ Hw].
      unfold sleeps, values_written in *.
      rewrite Hlog, !collect_app, Hs, Hw.
      destruct Hpart as [Hp | [(val & Hp) | (val & r_set & Hp)]]; subst part;
        simpl; rewrite ?app_nil_r, ?length_app, ?length_map; simpl;
        (split; [reflexivity|lia]).
Qed.

Lemma sleeps_10_ms_per_iteration_witness :
  opens Sim.gpio (Sim.fresh [1; 0; 1]) /\
  sleeps (log_of (after_iterations Sim.gpio 100 (Sim.fresh [1; 0; 1]))) = repeat 10000 100 /\
  fold_right Z.add 0 (sleeps (log_of (after_iterations Sim.gpio 100 (Sim.fresh [1; 0; 1]))))
    = 10000 * Z.of_nat 100.
Proof.
  assert (Hopen : opens Sim.gpio (Sim.fresh [1; 0; 1])) by (vm_compute; discriminate).
  split; [exact Hopen|].
  apply (sleeps_10_ms_per_iteration Sim.gpio (Sim.fresh [1; 0; 1]) Hopen).
Defined.



(** The lines read and driven by whole iterations. *)
Lemma lines_of_iterations (a b : ptr) (rs : list (Z * Z * Z)) :
  Forall (fun l => l = a) (lines_read (flat_map (iteration_calls a b) rs)) /\
  Forall (fun l => l = b) (lines_driven (flat_map (iteration_calls a b) rs)).
Proof.
  induction rs as [|[[val r_set] r_sleep] rs [IHr IHd]]; simpl.
  - split; constructor.
  - unfold lines_read, lines_driven in *. simpl. split; now constructor.
Qed.

(** X8. Every read is made on the handle obtained for offset 10 and every
    level is put on the handle obtained for offset 24, at every point of the
    execution.  With a provider that keeps the handles of different lines
    apart and did hand out an input line, the program therefore never drives
    its input line and never reads its output line. *)
Theorem reads_input_drives_output (P : provider) (w : world P) :
  opens P w ->
  exists chip in_line out_line r_in r_out : Z,
    log_of (after_iterations P 0 w) =
      [ Call (gpiod_chip_open "/dev/gpiochip0") chip;
        Call (gpiod_chip_get_line chip 10) in_line;
        Call (gpiod_chip_get_line chip 24) out_line;
        Call (gpiod_line_request_input in_line "gpio_in") r_in;
        Call (gpiod_line_request_output out_line "gpio_out" 0) r_out ] /\
    (forall fuel : nat,
       Forall (fun l => l = in_line) (lines_read (log_of (run P fuel main w))) /\
       Forall (fun l => l = out_line) (lines_driven (log_of (run P fuel main w)))) /\
    (distinct_handles P ->
     in_line <> NULL ->
     forall fuel : nat,
       Forall (fun l => l <> out_line) (lines_read (log_of (run P fuel main w))) /\
       Forall (fun l => l <> in_line) (lines_driven (log_of (run P fuel main w)))).
Proof.
  intros Hopen.
  destruct (run_main_opened P w Hopen)
    as (chip & a & b & r_in & r_out & w0 & Hchip & (w1 & w2 & Ha & Hb) & Hsmall & Hfive).
  assert (Hlines : forall fuel : nat,
    Forall (fun l => l = a) (lines_read (log_of (run P fuel main w))) /\
    Forall (fun l => l = b) (lines_driven (log_of (run P fuel main w)))).
  { intros fuel.
    destruct (Nat.le_gt_cases fuel startup_steps) as [Hle | Hgt].
    - rewrite (Hsmall fuel Hle).
      destruct fuel as [|[|[|[|[|fuel]]]]]; simpl; rewrite ?firstn_nil;
        split; repeat constructor.
    - destruct (run_steady_partial P chip a b (fuel - startup_steps) w0)
        as (rs & part & Hpart & Hlog).
      replace fuel with (startup_steps + (fuel - startup_steps))%nat by lia.
      rewrite Hfive. unfold log_of at 1 3. cbn [fst]. rewrite Hlog.
      destruct (lines_of_iterations a b rs) as [Hr Hd].
      unfold lines_read, lines_driven in *. rewrite !collect_app.
      split.
      + apply Forall_app. split; [constructor|].
        apply Forall_app. split; [exact Hr|].
        destruct Hpart as [Hp | [(val & Hp) | (val & r_set & Hp)]]; subst part;
          repeat constructor.
      + apply Forall_app. split; [repeat constructor|].
        apply Forall_app. split; [exact Hd|].
        destruct Hpart as [Hp | [(val & Hp) | (val & r_set & Hp)]]; subst part;
          repeat constructor. }
  exists chip, a, b, r_in, r_out. split; [|split].
  - unfold after_iterations. simpl Nat.add. now rewrite (Hsmall 5%nat (le_n _)).
  - exact Hlines.
  - intros Hdistinct Hnn fuel.
    assert (Hab : a <> b).
    { rewrite Ha in Hnn. rewrite Ha, Hb.
      apply (Hdistinct chip INPUT_LINE OUTPUT_LINE w1 w2); [discriminate|exact Hnn]. }
    destruct (Hlines fuel) as [Hr Hd]. split.
    + eapply Forall_impl; [|exact Hr]. intros l Hl. cbv beta in Hl. now subst l.
    + eapply Forall_impl; [|exact Hd]. intros l Hl. cbv beta in Hl. subst l.
      congruence.
Qed.

Lemma reads_input_drives_output_witness :
  opens Sim.gpio (Sim.fresh [1; 0]) /\
  Sim.line_handle 10 <> NULL /\
  exists chip in_line out_line r_in r_out : Z,
    log_of (after_iterations Sim.gpio 0 (Sim.fresh [1; 0])) =
      [ Call (gpiod_chip_open "/dev/gpiochip0") chip;
        Call (gpiod_chip_get_line chip 10) in_line;
        Call (gpiod_chip_get_line chip 24) out_line;
        Call (gpiod_line_request_input in_line "gpio_in") r_in;
        Call (gpiod_line_request_output out_line "gpio_out" 0) r_out ] /\
    (forall fuel : nat,
       Forall (fun l => l = in_line)
         (lines_read (log_of (run Sim.gpio fuel main (Sim.fresh [1; 0])))) /\
       Forall (fun l => l = out_line)
         (lines_driven (log_of (run Sim.gpio fuel main (Sim.fresh [1; 0]))))) /\
    (distinct_handles Sim.gpio ->
     in_line <> NULL ->
     forall fuel : nat,
       Forall (fun l => l <> out_line)
         (lines_read (log_of (run Sim.gpio fuel main (Sim.fresh [1; 0])))) /\
       Forall (fun l => l <> in_line)
         (lines_driven (log_of (run Sim.gpio fuel main (Sim.fresh [1; 0]))))).
Proof.
  assert (Hopen : opens Sim.gpio (Sim.fresh [1; 0])) by (vm_compute; discriminate).
  split; [exact Hopen|]. split; [discriminate|].
  exact (reads_input_drives_output Sim.gpio (Sim.fresh [1; 0]) Hopen).
Defined.
